(** * Failmail: the start-up wiring, the coordinator loop and the upstream pump

    A shallow embedding of [failmail.go] (both revisions kept in the
    repository: 0.1.0, where the builders are free functions taking the flag
    values, and 0.2.0, where they moved behind the [Config] object and the
    coordinator gained a renderer and a reloader), together with the maildir
    sink exercised by the maildir tests.

    Conventions.
    - Go strings and byte slices are [string]; a Go [error] is observed
      through its [Error()] text, so [error := string] and a nilable error is
      [option error].
    - A Go result pair [(T, error)] is kept as a pair, because the code does
      return a value together with a non-nil error ([buildUpstream]).
    - Whatever the program obtains from the operating system (files,
      hostname, clock, directories) is an explicit argument. *)

From Stdlib Require Import String Ascii List ZArith Lia DecimalString.
From stdpp Require Import base option list strings gmap.

Definition error : Type := string.

(** ** Go's [strings] package, as far as [buildAuth] uses it *)

Module strings.

(** [stripPrefix sep s] is [Some rest] when [s = sep ++ rest]. *)
Fixpoint stripPrefix (sep s : string) : option string :=
  match sep, s with
  | EmptyString, _ => Some s
  | String a sep', String b s' =>
      if decide (a = b) then stripPrefix sep' s' else None
  | String _ _, EmptyString => None
  end.

(** The two slices [s[:m]] and [s[m+len(sep):]] around the first index [m]
    at which [sep] occurs in [s] ([strings.Index]), if there is one. *)
Fixpoint cut (s sep : string) : option (string * string) :=
  match stripPrefix sep s with
  | Some rest => Some (EmptyString, rest)
  | None =>
      match s with
      | EmptyString => None
      | String c s' =>
          match cut s' sep with
          | Some (before, after) => Some (String c before, after)
          | None => None
          end
      end
  end.

(** The loop of [genSplit]: at most [k] cuts, then the remainder. *)
Fixpoint genSplit (k : nat) (s sep : string) : list string :=
  match k with
  | O => [s]
  | S k' =>
      match cut s sep with
      | None => [s]
      | Some (before, after) => before :: genSplit k' after sep
      end
  end.

(** [explode]: one-byte pieces, the last piece taking the remainder. *)
Fixpoint explode (s : string) (n : nat) : list string :=
  match s, n with
  | EmptyString, _ => []
  | _, O => []
  | _, S O => [s]
  | String c s', S n' => String c EmptyString :: explode s' n'
  end.

(** [strings.SplitN(s, sep, n)] for [n >= 0]. *)
Definition SplitN (s sep : string) (n : nat) : list string :=
  match n with
  | O => []
  | S k => if decide (sep = "") then explode s n else genSplit k s sep
  end.

End strings.

(** ** Grouping functions

    Modelled from the spec: the four grouping functions of section 4.1, as
    tagged variants (their constructors [Header], [SameSubject],
    [MatchingSubject] and [ReplacedSubject] are called by the builders
    below; the file that defines them is not part of the sources). *)

Inductive GroupBy : Type :=
| Header (name default : string)
| SameSubject
| MatchingSubject (pattern : string)
| ReplacedSubject (pattern replacement : string).

Definition buildBatch (batchMatch batchReplace batchHeader : string) : GroupBy :=
  if decide (batchMatch ≠ "") then MatchingSubject batchMatch
  else if decide (batchReplace ≠ "") then ReplacedSubject batchReplace "*"
  else Header batchHeader "".

Definition buildGroup (groupMatch groupReplace : string) : GroupBy :=
  if decide (groupMatch ≠ "") then MatchingSubject groupMatch
  else if decide (groupReplace ≠ "") then ReplacedSubject groupReplace "*"
  else SameSubject.

(** ** Listener credentials and TLS material *)

Inductive Auth : Type :=
| SingleUserPlainAuth (Username Password : string).

Definition credentialsFormatError : error :=
  "credentials must be in username:password format".

Definition buildAuth (credentials : string) : option Auth * option error :=
  if decide (credentials = "") then (None, None)
  else
    let parts := strings.SplitN credentials ":" 2 in
    if decide (length parts ≠ 2) then (None, Some credentialsFormatError)
    else (Some (SingleUserPlainAuth (nth 0 parts "") (nth 1 parts "")), None).

(** A loaded key pair and the [tls.Config] built around it. *)
Record Certificate : Type := { CertPEM : string; KeyPEM : string }.
Record TLSConfig : Type := { Certificates : list Certificate }.

(** [tls.LoadX509KeyPair] reads two files: its outcome is an input. *)
Definition KeyPairLoader : Type := string → string → Certificate + error.

Definition buildTLSConfig (LoadX509KeyPair : KeyPairLoader)
    (certFile keyFile : string) : option TLSConfig * option error :=
  if decide (certFile = "" ∨ keyFile = "") then (None, None)
  else
    match LoadX509KeyPair certFile keyFile with
    | inr err => (None, Some err)
    | inl cert => (Some {| Certificates := [cert] |}, None)
    end.

(** ** The maildir sink *)

(** The three ambient inputs of unique-name generation. *)
Record NamingEnv : Type := {
  Hostname : string + error;
  Now : Z;
  Pid : Z
}.

(** [%d] of [fmt.Sprintf]. *)
Definition fmtInt (z : Z) : string := NilZero.string_of_int (Z.to_int z).

(** Modelled from the spec: the [Maildir] type and its methods
    [NextUniqueName] and [Write] (maildir.go is not part of the sources; the
    maildir tests and sections 3, 6 and 9 of the specification describe it).
    [seq] is the sequence counter, [cur] the listing of [Path/cur] (entry
    name to file content).  A maildir value starts with [seq = 0], as the
    tests observe [_1] on every freshly made maildir. *)
Record Maildir : Type := {
  Path : string;
  seq : Z;
  cur : gmap string string
}.

(** [&Maildir{Path: path}] *)
Definition newMaildir (path : string) : Maildir :=
  {| Path := path; seq := 0; cur := ∅ |}.

(** Modelled from the spec: [Maildir.NextUniqueName], producing
    [<seconds>.<pid>_<seq>.<host>]; the hostname is looked up first and its
    error is handed back unchanged. *)
Definition NextUniqueName (env : NamingEnv) (m : Maildir)
    : (string * option error) * Maildir :=
  match Hostname env with
  | inr err => (("", Some err), m)
  | inl host =>
      let n := (seq m + 1)%Z in
      ((fmtInt (Now env) +:+ "." +:+ fmtInt (Pid env) +:+ "_" +:+ fmtInt n
          +:+ "." +:+ host, None),
       {| Path := Path m; seq := n; cur := cur m |})
  end.

(** Modelled from the spec: [Maildir.Write], which stores the bytes in
    [cur/] under the next unique name followed by [:2,S] and returns the
    entry's name; a naming error is returned as it is and nothing is
    stored. *)
Definition Write (env : NamingEnv) (bytes : string) (m : Maildir)
    : (string * option error) * Maildir :=
  let '((name, err), m1) := NextUniqueName env m in
  match err with
  | Some e => (("", Some e), m1)
  | None =>
      let entry := name +:+ ":2,S" in
      ((entry, None),
       {| Path := Path m1; seq := seq m1; cur := <[entry := bytes]> (cur m1) |})
  end.

(** [failedMaildir.Write(bytes)] as [sendUpstream] uses it: only the error
    is looked at. *)
Definition spoolTo (env : NamingEnv) (bytes : string) (m : Maildir)
    : option error * Maildir :=
  let '((_, err), m') := Write env bytes m in (err, m').

(** ** Messages *)

(** Modelled from the spec: the received message of section 3. *)
Record ReceivedMessage : Type := {
  From : string;
  To : list string;
  Data : string;
  ReceivedAt : Z;
  ParsedHeaders : list (string * list string);
  Subject : string
}.

(** Modelled from the spec: a rendered summary, with the envelope and the
    bytes of the outgoing message of section 3. *)
Record SummaryMessage : Type := {
  Sender : string;
  Recipients : list string;
  Bytes : string
}.

(** [OutgoingMessage] is an interface; the values [run] puts on [sending]
    are received messages relayed as they are ([sending <- msg]) and
    summaries. *)
Inductive OutgoingMessage : Type :=
| Raw (m : ReceivedMessage)
| Digest (s : SummaryMessage).

(** [msg.Contents()] (0.2.0) and [msg.Parts().Bytes] (0.1.0). *)
Definition Contents (msg : OutgoingMessage) : string :=
  match msg with
  | Raw m => Data m
  | Digest s => Bytes s
  end.

(** ** Upstreams

    The upstream types, with the fields that the struct literals of
    [buildUpstream] fill in (the logger of [LiveUpstream] and the writer of
    [DebugUpstream], always [os.Stdout], are left out; [MaildirUpstream]
    holds the maildir made for [dir]). *)

Inductive Upstream : Type :=
| DebugUpstream
| LiveUpstream (Addr User Password : string)
| MaildirUpstream (dir : string)
| ExecUpstream (Command : string)
| MultiUpstream (a b : Upstream).

Definition NewMultiUpstream (a b : Upstream) : Upstream := MultiUpstream a b.

(** [Maildir.Create] makes directories: its outcome per path is an input. *)
Definition MaildirCreator : Type := string → option error.

Definition buildUpstream (Create : MaildirCreator)
    (relayAddr relayUser relayPassword allDir relayCommand : string)
    : Upstream * option error :=
  let upstream :=
    if decide (relayAddr = "debug") then DebugUpstream
    else LiveUpstream relayAddr relayUser relayPassword in
  (* the statements after the [allDir] block *)
  let rest (upstream : Upstream) : Upstream * option error :=
    let upstream :=
      if decide (relayCommand ≠ "")
      then NewMultiUpstream (ExecUpstream relayCommand) upstream
      else upstream in
    (upstream, None) in
  if decide (allDir ≠ "") then
    match Create allDir with
    | Some err => (upstream, Some err)
    | None => rest (NewMultiUpstream (MaildirUpstream allDir) upstream)
    end
  else rest upstream.

(** Modelled from the spec: [MultiUpstream.Send] (upstream.go is not part of
    the sources), which "sends to a, then b; if a fails, b is still
    attempted; returns the first error encountered".

    [Send] gives the error returned and the sinks the message was handed
    to, in order.  What a single sink does with the message is an input:
    [sink u msg] is the error of the leaf upstream [u] on [msg]. *)
Fixpoint Send (sink : Upstream → OutgoingMessage → option error)
    (u : Upstream) (msg : OutgoingMessage) : option error * list Upstream :=
  match u with
  | MultiUpstream a b =>
      let '(ea, ta) := Send sink a msg in
      let '(eb, tb) := Send sink b msg in
      (match ea with Some e => Some e | None => eb end, ta ++ tb)
  | leaf => (sink leaf msg, [leaf])
  end.

(** ** Start-up: [main]

    [main] wires the components and then serves; [log.Fatalf] ends the
    process with the formatted message.  The result of start-up is the
    message of the fatal error, an early [return] (version banner shown,
    configuration written), or the configured server. *)

Record Listener : Type := {
  ListenOn : string;
  ListenerAuth : option Auth;
  ListenerTLS : option TLSConfig
}.

Record Server : Type := {
  listener : Listener;
  batch : GroupBy;
  group : GroupBy;
  upstream : Upstream;
  failedMaildir : Maildir;
  scripted : bool
}.

Inductive Startup : Type :=
| Fatal (msg : string)
| ReturnedEarly
| Serving (s : Server).

(** What start-up asks of the operating system. *)
Record OS : Type := {
  LoadX509KeyPair : KeyPairLoader;
  Create : MaildirCreator;
  runScript : string → option error
}.

Module V01.

(** The flag values of revision 0.1.0. *)
Record Flags : Type := {
  bindAddr : string;
  relayAddr : string;
  failDir : string;
  allDir : string;
  batchHeader : string;
  batchReplace : string;
  batchMatch : string;
  groupReplace : string;
  groupMatch : string;
  relayUser : string;
  relayPassword : string;
  credentials : string;
  tlsCert : string;
  tlsKey : string;
  relayCommand : string;
  script : string;
  version : bool
}.

Definition main (os : OS) (f : Flags) : Startup :=
  if version f then ReturnedEarly
  else
    let '(auth, err) := buildAuth (credentials f) in
    match err with
    | Some e => Fatal ("failed to parse auth credentials: " +:+ e)
    | None =>
        (* [err] is assigned here and next read after [buildUpstream]
           has overwritten it. *)
        let '(tlsConfig, _) :=
          buildTLSConfig (LoadX509KeyPair os) (tlsCert f) (tlsKey f) in
        let listener :=
          {| ListenOn := bindAddr f; ListenerAuth := auth;
             ListenerTLS := tlsConfig |} in
        let batch := buildBatch (batchMatch f) (batchReplace f) (batchHeader f) in
        let group := buildGroup (groupMatch f) (groupReplace f) in
        let '(upstream, err) :=
          buildUpstream (Create os) (relayAddr f) (relayUser f)
            (relayPassword f) (allDir f) (relayCommand f) in
        match err with
        | Some e => Fatal ("failed to create upstream: " +:+ e)
        | None =>
            match Create os (failDir f) with
            | Some e =>
                Fatal ("failed to create maildir for failed messages at "
                         +:+ failDir f +:+ ": " +:+ e)
            | None =>
                let server scripted :=
                  Serving {| listener := listener; batch := batch;
                             group := group; upstream := upstream;
                             failedMaildir := newMaildir (failDir f);
                             scripted := scripted |} in
                if decide (script f ≠ "") then
                  match runScript os (script f) with
                  | Some e =>
                      Fatal ("failed to run script file " +:+ script f
                               +:+ ": " +:+ e)
                  | None => server true
                  end
                else server false
            end
        end
    end.

(** The flag values when the command line gives none
    ([from], a lookup of the local user and host, is not among the
    fields). *)
Definition defaults : Flags :=
  {| bindAddr := "localhost:2525"; relayAddr := "localhost:25";
     failDir := "failed"; allDir := ""; batchHeader := "X-Failmail-Split";
     batchReplace := ""; batchMatch := ""; groupReplace := "";
     groupMatch := ""; relayUser := ""; relayPassword := "";
     credentials := ""; tlsCert := ""; tlsKey := ""; relayCommand := "";
     script := ""; version := false |}.

(** [f] with other values for [-auth], [-tls-cert] and [-tls-key]. *)
Definition withListenerFlags (auth cert key : string) (f : Flags) : Flags :=
  {| bindAddr := bindAddr f; relayAddr := relayAddr f; failDir := failDir f;
     allDir := allDir f; batchHeader := batchHeader f;
     batchReplace := batchReplace f; batchMatch := batchMatch f;
     groupReplace := groupReplace f; groupMatch := groupMatch f;
     relayUser := relayUser f; relayPassword := relayPassword f;
     credentials := auth; tlsCert := cert; tlsKey := key;
     relayCommand := relayCommand f; script := script f;
     version := version f |}.

End V01.

Module V02.

(** [os.Stat] on the pidfile, as [writePidfile] distinguishes it. *)
Inductive StatResult : Type :=
| StatOk
| StatNotExist
| StatFailed (err : error).

(** Revision 0.2.0 reads everything through the [Config] object, whose
    methods are not part of the sources: what they return is an input. *)
Record Config : Type := {
  Parse : bool * option error;
  Version : bool;
  AuthResult : option Auth * option error;
  TLSConfigResult : option TLSConfig * option error;
  SocketResult : string * option error;
  Pidfile : string;
  PidfileStat : StatResult;
  PidfileCreate : option error;
  Batch : GroupBy;
  Group : GroupBy;
  UpstreamResult : Upstream * option error;
  FailDir : string;
  Script : string
}.

(** [writePidfile]: [Some msg] when it ends the process. *)
Definition writePidfile (c : Config) : option string :=
  match PidfileStat c with
  | StatFailed err =>
      Some ("could not write pidfile " +:+ Pidfile c +:+ ": " +:+ err)
  | StatOk => Some ("pidfile " +:+ Pidfile c +:+ " already exists")
  | StatNotExist =>
      match PidfileCreate c with
      | None => None
      | Some err =>
          Some ("could not write pidfile " +:+ Pidfile c +:+ ": " +:+ err)
      end
  end.

Definition main (os : OS) (c : Config) : Startup :=
  let '(wroteConfig, err) := Parse c in
  match err with
  | Some e => Fatal ("Failed to read configuration: " +:+ e)
  | None =>
  if wroteConfig then ReturnedEarly
  else if Version c then ReturnedEarly
  else
    let '(auth, err) := AuthResult c in
    match err with
    | Some e => Fatal ("failed to parse auth credentials: " +:+ e)
    | None =>
        (* [err] is assigned here and overwritten by [config.Socket()]
           before it is read. *)
        let '(tlsConfig, _) := TLSConfigResult c in
        let '(socket, err) := SocketResult c in
        match err with
        | Some e => Fatal ("failed to create socket for listener: " +:+ e)
        | None =>
            let listener :=
              {| ListenOn := socket; ListenerAuth := auth;
                 ListenerTLS := tlsConfig |} in
            match (if decide (Pidfile c ≠ "") then writePidfile c else None) with
            | Some msg => Fatal msg
            | None =>
                let '(upstream, err) := UpstreamResult c in
                match err with
                | Some e => Fatal ("failed to create upstream: " +:+ e)
                | None =>
                    match Create os (FailDir c) with
                    | Some e =>
                        Fatal ("failed to create maildir for failed messages at "
                                 +:+ FailDir c +:+ ": " +:+ e)
                    | None =>
                        let server scripted :=
                          Serving {| listener := listener; batch := Batch c;
                                     group := Group c; upstream := upstream;
                                     failedMaildir := newMaildir (FailDir c);
                                     scripted := scripted |} in
                        if decide (Script c ≠ "") then
                          match runScript os (Script c) with
                          | Some e =>
                              Fatal ("failed to run script file " +:+ Script c
                                       +:+ ": " +:+ e)
                          | None => server true
                          end
                        else server false
                    end
                end
            end
        end
    end
  end.

(** [c] with another result for [config.TLSConfig()]. *)
Definition withTLSConfigResult (r : option TLSConfig * option error)
    (c : Config) : Config :=
  {| Parse := Parse c; Version := Version c; AuthResult := AuthResult c;
     TLSConfigResult := r; SocketResult := SocketResult c;
     Pidfile := Pidfile c; PidfileStat := PidfileStat c;
     PidfileCreate := PidfileCreate c; Batch := Batch c; Group := Group c;
     UpstreamResult := UpstreamResult c; FailDir := FailDir c;
     Script := Script c |}.

End V02.

(** ** Channels

    A channel is the sequence of values sent and not yet received, and
    whether it has been closed.  The capacity (64 for [sending]) is left
    out: a send on a full channel parks the sender until the receiver has
    taken a value, which changes neither the order of the values nor what
    closing does. *)

Record Chan (A : Type) : Type := { queue : list A; closed : bool }.
Arguments queue {A} _.
Arguments closed {A} _.

Definition makeChan {A : Type} : Chan A := {| queue := []; closed := false |}.

(** [c <- x]: [None] is the run-time panic "send on closed channel". *)
Definition chanSend {A : Type} (x : A) (c : Chan A) : option (Chan A) :=
  if closed c then None
  else Some {| queue := queue c ++ [x]; closed := false |}.

(** [close(c)]: [None] is the run-time panic "close of closed channel". *)
Definition chanClose {A : Type} (c : Chan A) : option (Chan A) :=
  if closed c then None
  else Some {| queue := queue c; closed := true |}.

(** How a statement ends: normally, by a [break] looking for its enclosing
    statement, or by a panic. *)
Inductive Completion : Type :=
| Normal
| Break
| Panicking (msg : string).

(** ** The coordinator: [run] *)

Inductive TerminationRequest : Type :=
| GracefulShutdown
| Reload.

(** What one [select] receives.  The wall clock read by [buffer.Flush]
    comes with the event that leads to the flush. *)
Inductive Event : Type :=
| Tick (now : Z)
| RateCheckTick
| Received (m : ReceivedMessage)
| Done (req : TerminationRequest) (now : Z).

(** How [run] stands after a finite sequence of events. *)
Inductive Outcome : Type :=
| Waiting        (* parked in [select]: no channel is ready *)
| Returned       (* the function has returned *)
| Panicked (msg : string).

Section Coordinator.

(** The message buffer and the rate counter are used through their
    methods only. *)
Context {BufferT SummaryT CounterT : Type}.
Variable bufferAdd : ReceivedMessage → BufferT → BufferT.
Variable bufferFlush : bool → Z → BufferT → list SummaryT * BufferT.
Variable counterAdd : Z → CounterT → CounterT.
Variable counterCheckAndAdvance : CounterT → (bool * Z) * CounterT.
(** 0.2.0 renders a summary before sending it; in 0.1.0 the flushed
    summary is itself the outgoing message. *)
Variable render : SummaryT → OutgoingMessage.

Record Coordinator : Type := {
  buffer : BufferT;
  rateCounter : CounterT;
  sending : Chan OutgoingMessage;
  reloadRequested : bool;
  log : list string
}.

Definition withBuffer (b : BufferT) (st : Coordinator) : Coordinator :=
  {| buffer := b; rateCounter := rateCounter st; sending := sending st;
     reloadRequested := reloadRequested st; log := log st |}.

Definition withRateCounter (r : CounterT) (st : Coordinator) : Coordinator :=
  {| buffer := buffer st; rateCounter := r; sending := sending st;
     reloadRequested := reloadRequested st; log := log st |}.

Definition withSending (c : Chan OutgoingMessage) (st : Coordinator) : Coordinator :=
  {| buffer := buffer st; rateCounter := rateCounter st; sending := c;
     reloadRequested := reloadRequested st; log := log st |}.

Definition RequestReload (st : Coordinator) : Coordinator :=
  {| buffer := buffer st; rateCounter := rateCounter st; sending := sending st;
     reloadRequested := true; log := log st |}.

Definition logPrintf (line : string) (st : Coordinator) : Coordinator :=
  {| buffer := buffer st; rateCounter := rateCounter st; sending := sending st;
     reloadRequested := reloadRequested st; log := log st ++ [line] |}.

(** [sending <- msg] *)
Definition send (msg : OutgoingMessage) (st : Coordinator)
    : Completion * Coordinator :=
  match chanSend msg (sending st) with
  | Some c => (Normal, withSending c st)
  | None => (Panicking "send on closed channel", st)
  end.

(** [for _, summary := range summaries { sending <- render(summary) }] *)
Fixpoint sendEach (summaries : list SummaryT) (st : Coordinator)
    : Completion * Coordinator :=
  match summaries with
  | [] => (Normal, st)
  | summary :: rest =>
      match send (render summary) st with
      | (Normal, st') => sendEach rest st'
      | stop => stop
      end
  end.

(** The body of the [select] case chosen by the event.  With [v02] it is
    the loop of 0.2.0; without, that of 0.1.0, whose [done] channel carries
    a [bool] and which has no reloader, so the request is not looked at. *)
Definition caseBody (v02 relayAll : bool) (e : Event) (st : Coordinator)
    : Completion * Coordinator :=
  match e with
  | Tick now =>
      let '(summaries, b) := bufferFlush false now (buffer st) in
      sendEach summaries (withBuffer b st)
  | RateCheckTick =>
      let '((exceeded, count), r) := counterCheckAndAdvance (rateCounter st) in
      let st := withRateCounter r st in
      if exceeded
      then (Normal,
            logPrintf ("rate limit check exceeded: " +:+ fmtInt count
                         +:+ " messages") st)
      else (Normal, st)
  | Received msg =>
      let st := withBuffer (bufferAdd msg (buffer st)) st in
      let st := withRateCounter (counterAdd 1 (rateCounter st)) st in
      if relayAll then send (Raw msg) st else (Normal, st)
  | Done req now =>
      let st :=
        match v02, req with
        | true, Reload => RequestReload st
        | _, _ => st
        end in
      let st := logPrintf "cleaning up" st in
      let '(summaries, b) := bufferFlush true now (buffer st) in
      match sendEach summaries (withBuffer b st) with
      | (Normal, st) =>
          match chanClose (sending st) with
          | Some c => (Break, withSending c st)
          | None => (Panicking "close of closed channel", st)
          end
      | stop => stop
      end
  end.

(** The state in which the [done] case leaves a coordinator whose
    [sending] channel was open: the reload noted (0.2.0), the line
    logged, the buffer flushed, the summaries enqueued in order and the
    channel closed. *)
Definition afterDone (v02 : bool) (req : TerminationRequest) (now : Z)
    (st : Coordinator) : Coordinator :=
  let st0 := match v02, req with
             | true, Reload => RequestReload st
             | _, _ => st
             end in
  let '(summaries, b) := bufferFlush true now (buffer st) in
  {| buffer := b; rateCounter := rateCounter st;
     sending := {| queue := queue (sending st) ++ map render summaries;
                   closed := true |};
     reloadRequested := reloadRequested st0;
     log := log st ++ ["cleaning up"] |}.

(** Two coordinators that differ in their open [sending] channels only. *)
Definition sameButSending (a b : Coordinator) : Prop :=
  buffer a = buffer b ∧ rateCounter a = rateCounter b
  ∧ reloadRequested a = reloadRequested b ∧ log a = log b
  ∧ closed (sending a) = false ∧ closed (sending b) = false.

(** [select { ... }]: a [break] in a case ends the [select] statement. *)
Definition selectStmt (v02 relayAll : bool) (e : Event) (st : Coordinator)
    : Completion * Coordinator :=
  match caseBody v02 relayAll e st with
  | (Break, st') => (Normal, st')
  | other => other
  end.

(** [for { select { ... } }], the last statement of [run]: the loop goes
    round while its body ends normally and is left by a [break] that
    reaches it; [run] has nothing after the loop, so leaving it returns. *)
Fixpoint forSelect (v02 relayAll : bool) (events : list Event)
    (st : Coordinator) : Outcome * Coordinator :=
  match events with
  | [] => (Waiting, st)
  | e :: rest =>
      match selectStmt v02 relayAll e st with
      | (Normal, st') => forSelect v02 relayAll rest st'
      | (Break, st') => (Returned, st')
      | (Panicking msg, st') => (Panicked msg, st')
      end
  end.

(** [run] of revision 0.2.0 and of revision 0.1.0. *)
Definition run (relayAll : bool) := forSelect true relayAll.
Definition run01 (relayAll : bool) := forSelect false relayAll.

Definition start (b : BufferT) (r : CounterT) : Coordinator :=
  {| buffer := b; rateCounter := r; sending := makeChan;
     reloadRequested := false; log := [] |}.

End Coordinator.

(** ** The upstream pump: [sendUpstream] *)

Inductive PumpOutcome : Type :=
| Parked         (* [range] waits: the channel is empty and still open *)
| Finished.      (* the channel is closed and drained: the function returned *)

Section Pump.

(** [upstream.Send] acts on the outside world, [failedMaildir.Write] on
    the failure spool; both are used through their result only. *)
Context {World Spool : Type}.
Variable upstreamSend : OutgoingMessage → World → option error * World.
Variable spoolWrite : string → Spool → option error * Spool.

Record Pump : Type := {
  world : World;
  spool : Spool;
  pumpLog : list string
}.

(** The body of the [range] loop for one message. *)
Definition forward (msg : OutgoingMessage) (st : Pump) : Pump :=
  let '(sendErr, w) := upstreamSend msg (world st) in
  match sendErr with
  | None => {| world := w; spool := spool st; pumpLog := pumpLog st |}
  | Some e1 =>
      let log1 := pumpLog st ++ ["couldn't send message: " +:+ e1] in
      let '(saveErr, sp) := spoolWrite (Contents msg) (spool st) in
      match saveErr with
      | None => {| world := w; spool := sp; pumpLog := log1 |}
      | Some e2 =>
          {| world := w; spool := sp;
             pumpLog := log1 ++ ["couldn't save message: " +:+ e2] |}
      end
  end.

(** [for msg := range sending { ... }] over the values in the channel. *)
Fixpoint rangeOver (pending : list OutgoingMessage) (isClosed : bool)
    (st : Pump) : PumpOutcome * Pump :=
  match pending with
  | msg :: rest => rangeOver rest isClosed (forward msg st)
  | [] =>
      if isClosed
      then (Finished,
            {| world := world st; spool := spool st;
               pumpLog := pumpLog st ++ ["done sending"] |})
      else (Parked, st)
  end.

Definition sendUpstream (sending : Chan OutgoingMessage) (st : Pump)
    : PumpOutcome * Pump :=
  rangeOver (queue sending) (closed sending) st.

End Pump.

(** ** The buffer and the rate counter behind the coordinator *)

(** Modelled from the spec: the rate counter of section 4.4
    (ratecounter.go is not part of the sources). *)
Record RateCounter : Type := { buckets : list Z; limit : Z }.

(** Modelled from the spec: [WindowSize] empty buckets. *)
Definition NewRateCounter (rateLimit : Z) (window : nat) : RateCounter :=
  {| buckets := replicate window 0%Z; limit := rateLimit |}.

(** Modelled from the spec: [RateCounter.Add], "add n to the head
    bucket". *)
Definition RateAdd (n : Z) (r : RateCounter) : RateCounter :=
  {| buckets := match buckets r with
                | head :: tail => (head + n)%Z :: tail
                | [] => []
                end;
     limit := limit r |}.

(** Modelled from the spec: [RateCounter.CheckAndAdvance], which sums the
    buckets, compares with a positive limit, then shifts the buckets by one
    behind a fresh head. *)
Definition CheckAndAdvance (r : RateCounter) : (bool * Z) * RateCounter :=
  let total := foldr Z.add 0%Z (buckets r) in
  let exceeded := bool_decide (0 < limit r)%Z && bool_decide (limit r < total)%Z in
  ((exceeded, total),
   {| buckets := match buckets r with
                 | [] => []
                 | _ => 0%Z :: removelast (buckets r)
                 end;
      limit := limit r |}).

(** Modelled from the spec: groups, summaries in progress and the message
    buffer of sections 3 and 4.2 (buffer.go is not part of the sources). *)
Record Group : Type := {
  Key : string;
  GroupSubject : string;
  First : Z;
  Last : Z;
  Count : Z;
  Messages : list ReceivedMessage
}.

Record Summary : Type := {
  BatchKey : string;
  Start : Z;
  LastUpdate : Z;
  Groups : gmap string Group
}.

Record MessageBuffer : Type := {
  WaitPeriod : Z;
  MaxWait : Z;
  batchFn : ReceivedMessage → string;
  groupFn : ReceivedMessage → string;
  summaries : gmap string Summary
}.

(** Modelled from the spec: an empty buffer; the grouping functions are
    given as the key functions they compute. *)
Definition NewMessageBuffer (waitPeriod maxWait : Z)
    (batch group : ReceivedMessage → string) : MessageBuffer :=
  {| WaitPeriod := waitPeriod; MaxWait := maxWait; batchFn := batch;
     groupFn := group; summaries := ∅ |}.

(** Modelled from the spec: the update of [First], [Last], [Count] and
    [Messages] of a group by one more message. *)
Definition addToGroup (k : string) (m : ReceivedMessage) (g : option Group) : Group :=
  match g with
  | None =>
      {| Key := k; GroupSubject := Subject m; First := ReceivedAt m;
         Last := ReceivedAt m; Count := 1; Messages := [m] |}
  | Some g =>
      {| Key := Key g; GroupSubject := GroupSubject g;
         First := Z.min (First g) (ReceivedAt m);
         Last := Z.max (Last g) (ReceivedAt m);
         Count := (Count g + 1)%Z; Messages := Messages g ++ [m] |}
  end.

(** Modelled from the spec: the update of [Start], [LastUpdate] and
    [Groups] of a summary in progress by one more message. *)
Definition addToSummary (b k : string) (m : ReceivedMessage) (s : option Summary)
    : Summary :=
  match s with
  | None =>
      {| BatchKey := b; Start := ReceivedAt m; LastUpdate := ReceivedAt m;
         Groups := {[ k := addToGroup k m None ]} |}
  | Some s =>
      {| BatchKey := BatchKey s;
         Start := Z.min (Start s) (ReceivedAt m);
         LastUpdate := Z.max (LastUpdate s) (ReceivedAt m);
         Groups := <[ k := addToGroup k m (Groups s !! k) ]> (Groups s) |}
  end.

(** Modelled from the spec: [MessageBuffer.Add]. *)
Definition BufferAdd (m : ReceivedMessage) (buf : MessageBuffer) : MessageBuffer :=
  let b := batchFn buf m in
  let k := groupFn buf m in
  {| WaitPeriod := WaitPeriod buf; MaxWait := MaxWait buf;
     batchFn := batchFn buf; groupFn := groupFn buf;
     summaries := <[ b := addToSummary b k m (summaries buf !! b) ]> (summaries buf) |}.

(** Modelled from the spec: a summary is due when it has been quiet for
    [WaitPeriod], when it is [MaxWait] old, or when the flush is forced. *)
Definition due (buf : MessageBuffer) (force : bool) (now : Z) (s : Summary) : bool :=
  force
  || bool_decide (WaitPeriod buf ≤ now - LastUpdate s)%Z
  || bool_decide (MaxWait buf ≤ now - Start s)%Z.

(** Modelled from the spec: [MessageBuffer.Flush], which removes the due
    summaries from the buffer and returns them. *)
Definition BufferFlush (force : bool) (now : Z) (buf : MessageBuffer)
    : list Summary * MessageBuffer :=
  (snd <$> map_to_list (filter (λ kv, due buf force now (snd kv) = true) (summaries buf)),
   {| WaitPeriod := WaitPeriod buf; MaxWait := MaxWait buf;
      batchFn := batchFn buf; groupFn := groupFn buf;
      summaries := filter (λ kv, due buf force now (snd kv) = false) (summaries buf) |}).

(** ** Sample inputs *)

Module Sample.

(** A machine on which directories can be made, scripts load, and no key
    pair can be read. *)
Definition os : OS :=
  {| LoadX509KeyPair := λ cert _, inr ("open " +:+ cert +:+ ": no such file or directory");
     Create := λ _, None;
     runScript := λ _, None |}.

(** A 0.2.0 configuration with the default values, whose TLS material
    cannot be read. *)
Definition config : V02.Config :=
  {| V02.Parse := (false, None); V02.Version := false;
     V02.AuthResult := (None, None);
     V02.TLSConfigResult := (None, Some "open cert.pem: no such file or directory");
     V02.SocketResult := ("localhost:2525", None);
     V02.Pidfile := ""; V02.PidfileStat := V02.StatNotExist;
     V02.PidfileCreate := None;
     V02.Batch := Header "X-Failmail-Split" ""; V02.Group := SameSubject;
     V02.UpstreamResult := (LiveUpstream "localhost:25" "" "", None);
     V02.FailDir := "failed"; V02.Script := "" |}.

Definition crlf : string := String "013" (String "010" "").

Definition received (time : Z) (subject body : string) : ReceivedMessage :=
  {| From := "cron@example.com"; To := ["ops@example.com"];
     Data := "Subject: " +:+ subject +:+ crlf +:+ crlf +:+ body;
     ReceivedAt := time; ParsedHeaders := [("Subject", [subject])];
     Subject := subject |}.

Definition digest (body : string) : OutgoingMessage :=
  Digest {| Sender := "failmail@example.com"; Recipients := ["ops@example.com"];
            Bytes := body |}.

(** A one-line digest of a summary, standing for the renderer. *)
Definition render (s : Summary) : OutgoingMessage :=
  let groups := snd <$> map_to_list (Groups s) in
  Digest {| Sender := "failmail@example.com";
            Recipients := remove_dups (groups ≫= λ g, Messages g ≫= To);
            Bytes := "[" +:+ BatchKey s +:+ "] "
                       +:+ fmtInt (foldr Z.add 0%Z (Count <$> groups))
                       +:+ " messages" |}.

(** The coordinator at start-up: waiting 30 s, at most 5 min, one batch,
    grouped by subject; a rate window of 5 with no limit. *)
Definition coordinator : @Coordinator MessageBuffer RateCounter :=
  start (NewMessageBuffer 30 300 (λ _, "") Subject) (NewRateCounter 0 5).

(** The coordinator after two alerts, one second apart. *)
Definition busy : @Coordinator MessageBuffer RateCounter :=
  snd (run BufferAdd BufferFlush RateAdd CheckAndAdvance render false
         [Received (received 0 "disk full" "sda1"); Received (received 1 "disk full" "sdb1")]
         coordinator).

(** The naming environment pinned by the tests, and one whose hostname
    lookup fails. *)
Definition env : NamingEnv :=
  {| Hostname := inl "test"; Now := 1393650000; Pid := 1000 |}.

Definition noHostname : NamingEnv :=
  {| Hostname := inr "couldn't get hostname"; Now := 1393650000; Pid := 1000 |}.

(** A relay that takes summaries and refuses relayed raw messages; the
    world is the list of messages it took. *)
Definition relay (msg : OutgoingMessage) (taken : list OutgoingMessage)
    : option error * list OutgoingMessage :=
  match msg with
  | Raw _ => (Some "554 relay access denied", taken)
  | Digest _ => (None, taken ++ [msg])
  end.

Definition pump (dir : string) : @Pump (list OutgoingMessage) Maildir :=
  {| world := []; spool := newMaildir dir; pumpLog := [] |}.

(** Two alerts, a tick before and a tick after the quiet period, and a
    rate check. *)
Definition morning : list Event :=
  [Received (received 0 "disk full" "sda1"); Tick 1;
   Received (received 1 "load high" "12.5"); RateCheckTick; Tick 40].

(** Every sink accepts the message. *)
Definition accepting : Upstream → OutgoingMessage → option error := λ _ _, None.

End Sample.

(** [s] has a colon among its bytes. *)
Definition colon_in (s : string) : Prop := In ":"%char (list_ascii_of_string s).

(** The event is a request on [done]. *)
Definition isDone (e : Event) : bool :=
  match e with
  | Done _ _ => true
  | _ => false
  end.

(** The event is a tick of the flush timer; the event is a rate check. *)
Definition isTick (e : Event) : bool :=
  match e with
  | Tick _ => true
  | _ => false
  end.

Definition isRateCheck (e : Event) : bool :=
  match e with
  | RateCheckTick => true
  | _ => false
  end.

(** The messages among the events, in order of arrival. *)
Definition arrivals (events : list Event) : list ReceivedMessage :=
  events ≫= λ e, match e with Received m => [m] | _ => [] end.

(** * Properties *)

(** ** Selection of the grouping functions *)

(** C4: [buildBatch] chooses [MatchingSubject batchMatch] when [batchMatch]
    is non-empty, else [ReplacedSubject batchReplace "*"] when
    [batchReplace] is non-empty, else [Header batchHeader ""]; [buildGroup]
    chooses [MatchingSubject groupMatch], else
    [ReplacedSubject groupReplace "*"], else [SameSubject], by the same
    precedence. *)
Theorem build_grouping_precedence :
  ∀ batchMatch batchReplace batchHeader groupMatch groupReplace : string,
    (batchMatch ≠ "" →
       buildBatch batchMatch batchReplace batchHeader = MatchingSubject batchMatch)
    ∧ (batchMatch = "" → batchReplace ≠ "" →
       buildBatch batchMatch batchReplace batchHeader = ReplacedSubject batchReplace "*")
    ∧ (batchMatch = "" → batchReplace = "" →
       buildBatch batchMatch batchReplace batchHeader = Header batchHeader "")
    ∧ (groupMatch ≠ "" →
       buildGroup groupMatch groupReplace = MatchingSubject groupMatch)
    ∧ (groupMatch = "" → groupReplace ≠ "" →
       buildGroup groupMatch groupReplace = ReplacedSubject groupReplace "*")
    ∧ (groupMatch = "" → groupReplace = "" →
       buildGroup groupMatch groupReplace = SameSubject).
Proof.
  intros bm br bh gm gr. unfold buildBatch, buildGroup.
  repeat split; intros; repeat case_decide; congruence.
Qed.

Lemma build_grouping_precedence_witness :
  buildBatch "^job" "[0-9]+" "X-Failmail-Split" = MatchingSubject "^job"
  ∧ buildBatch "" "[0-9]+" "X-Failmail-Split" = ReplacedSubject "[0-9]+" "*"
  ∧ buildBatch "" "" "X-Failmail-Split" = Header "X-Failmail-Split" ""
  ∧ buildGroup "^job" "[0-9]+" = MatchingSubject "^job"
  ∧ buildGroup "" "[0-9]+" = ReplacedSubject "[0-9]+" "*"
  ∧ buildGroup "" "" = SameSubject.
Proof.
  pose proof (build_grouping_precedence "^job" "[0-9]+" "X-Failmail-Split"
                "^job" "[0-9]+") as (Hb & _ & _ & Hg & _ & _).
  pose proof (build_grouping_precedence "" "[0-9]+" "X-Failmail-Split"
                "" "[0-9]+") as (_ & Hb' & _ & _ & Hg' & _).
  pose proof (build_grouping_precedence "" "" "X-Failmail-Split" "" "")
    as (_ & _ & Hb'' & _ & _ & Hg'').
  split_and!.
  - apply Hb; discriminate.
  - apply Hb'; [reflexivity | discriminate].
  - apply Hb''; reflexivity.
  - apply Hg; discriminate.
  - apply Hg'; [reflexivity | discriminate].
  - apply Hg''; reflexivity.
Defined.

(** ** TLS material *)

(** C9: when the certificate path or the key path is empty,
    [buildTLSConfig] returns a nil config and a nil error, whatever the
    other path is and whether or not the files can be read. *)
Theorem buildTLSConfig_needs_both :
  ∀ (load : KeyPairLoader) (certFile keyFile : string),
    certFile = "" ∨ keyFile = "" →
    buildTLSConfig load certFile keyFile = (None, None).
Proof.
  intros load certFile keyFile H. unfold buildTLSConfig.
  case_decide; [reflexivity | contradiction].
Qed.

Lemma buildTLSConfig_needs_both_witness :
  buildTLSConfig (λ _ _, inr "unreadable") "cert.pem" "" = (None, None)
  ∧ buildTLSConfig (λ _ _, inr "unreadable") "" "key.pem" = (None, None).
Proof.
  split.
  - apply (buildTLSConfig_needs_both (λ _ _, inr "unreadable") "cert.pem" "").
    right; reflexivity.
  - apply (buildTLSConfig_needs_both (λ _ _, inr "unreadable") "" "key.pem").
    left; reflexivity.
Defined.

(** ** Listener credentials *)

Lemma cut_colon_found (s : string) :
  colon_in s →
  ∃ user pass, strings.cut s ":" = Some (user, pass)
               ∧ s = user +:+ ":" +:+ pass ∧ ¬ colon_in user.
Proof.
  induction s as [|c s IH]; intros Hin.
  - destruct Hin.
  - cbn [strings.cut strings.stripPrefix].
    destruct (decide (":"%char = c)) as [<-|Hc].
    + exists "", s. split_and!; [reflexivity | reflexivity | intros []].
    + destruct Hin as [Heq|Hin]; [congruence|].
      destruct (IH Hin) as (user & pass & Hcut & Hs & Hu).
      exists (String c user), pass. rewrite Hcut. split_and!.
      * reflexivity.
      * rewrite Hs at 1. reflexivity.
      * intros [Heq|Hin']; [congruence | exact (Hu Hin')].
Qed.

Lemma cut_colon_missing (s : string) :
  ¬ colon_in s → strings.cut s ":" = None.
Proof.
  induction s as [|c s IH]; intros Hnot.
  - reflexivity.
  - cbn [strings.cut strings.stripPrefix].
    destruct (decide (":"%char = c)) as [<-|Hc].
    + exfalso. apply Hnot. left. reflexivity.
    + rewrite IH; [reflexivity|]. intros Hin. apply Hnot. right. exact Hin.
Qed.

Lemma buildAuth_user_pass (s : string) :
  s ≠ "" → colon_in s →
  ∃ user pass, s = user +:+ ":" +:+ pass ∧ ¬ colon_in user
               ∧ buildAuth s = (Some (SingleUserPlainAuth user pass), None).
Proof.
  intros Hne Hin. destruct (cut_colon_found s Hin) as (user & pass & Hcut & Hs & Hu).
  exists user, pass. split_and!; [exact Hs | exact Hu |].
  unfold buildAuth. destruct (decide (s = "")) as [|_]; [contradiction|].
  cbn [strings.SplitN]. destruct (decide (":" = "")) as [Heq|_]; [discriminate Heq|].
  cbn [strings.genSplit]. rewrite Hcut. reflexivity.
Qed.

Lemma buildAuth_no_colon (s : string) :
  s ≠ "" → ¬ colon_in s → buildAuth s = (None, Some credentialsFormatError).
Proof.
  intros Hne Hnot. unfold buildAuth.
  destruct (decide (s = "")) as [|_]; [contradiction|].
  cbn [strings.SplitN]. destruct (decide (":" = "")) as [Heq|_]; [discriminate Heq|].
  cbn [strings.genSplit]. rewrite (cut_colon_missing s Hnot). reflexivity.
Qed.

(** C7: [buildAuth ""] is a nil authenticator with a nil error; a non-empty
    string with a colon gives [SingleUserPlainAuth] with the text before the
    first colon as user name and all the text after it as password; a
    non-empty string without a colon gives an error, on which [main] ends
    the process with "failed to parse auth credentials". *)
Theorem buildAuth_spec :
  buildAuth "" = (None, None)
  ∧ (∀ s, s ≠ "" → colon_in s →
       ∃ user pass, s = user +:+ ":" +:+ pass ∧ ¬ colon_in user
                    ∧ buildAuth s = (Some (SingleUserPlainAuth user pass), None))
  ∧ (∀ s, s ≠ "" → ¬ colon_in s →
       buildAuth s = (None, Some credentialsFormatError)
       ∧ ∀ os f, V01.version f = false → V01.credentials f = s →
           V01.main os f
           = Fatal ("failed to parse auth credentials: " +:+ credentialsFormatError)).
Proof.
  split_and!.
  - reflexivity.
  - exact buildAuth_user_pass.
  - intros s Hne Hnot. pose proof (buildAuth_no_colon s Hne Hnot) as Herr.
    split; [exact Herr|]. intros os f Hv Hc. unfold V01.main.
    rewrite Hv, Hc, Herr. reflexivity.
Qed.

Lemma buildAuth_spec_witness :
  (∃ user pass, "alice:s3cret:x" = user +:+ ":" +:+ pass ∧ ¬ colon_in user
       ∧ buildAuth "alice:s3cret:x" = (Some (SingleUserPlainAuth user pass), None))
  ∧ buildAuth "alice" = (None, Some credentialsFormatError)
  ∧ V01.main Sample.os (V01.withListenerFlags "alice" "" "" V01.defaults)
    = Fatal ("failed to parse auth credentials: " +:+ credentialsFormatError).
Proof.
  destruct buildAuth_spec as (_ & Hsome & Herr).
  assert (Hnot : ¬ colon_in "alice").
  { unfold colon_in. simpl. intros H.
    repeat (destruct H as [H|H]; [discriminate H|]). exact H. }
  destruct (Herr "alice" ltac:(discriminate) Hnot) as (Hbuild & Hmain).
  split_and!.
  - apply Hsome; [discriminate|]. unfold colon_in. simpl. tauto.
  - exact Hbuild.
  - apply Hmain; reflexivity.
Defined.

(** A split at the first colon: the password keeps the later ones. *)
Example buildAuth_first_colon :
  buildAuth "alice:s3cret:x" = (Some (SingleUserPlainAuth "alice" "s3cret:x"), None)
  ∧ buildAuth ":" = (Some (SingleUserPlainAuth "" ""), None).
Proof. split; reflexivity. Qed.

(** ** Unreadable TLS material at start-up *)

(** C3 (the code departs from it): when the key pair cannot be loaded,
    [buildTLSConfig] does return the error, but [main] never reads it:
    start-up is the one of the same flags without [-tls-cert] and
    [-tls-key] (0.1.0), and of the same configuration with a nil TLS error
    (0.2.0). *)
Theorem main_drops_tls_error :
  (∀ os f e,
     V01.tlsCert f ≠ "" → V01.tlsKey f ≠ "" →
     LoadX509KeyPair os (V01.tlsCert f) (V01.tlsKey f) = inr e →
     buildTLSConfig (LoadX509KeyPair os) (V01.tlsCert f) (V01.tlsKey f)
     = (None, Some e)
     ∧ V01.main os f
       = V01.main os (V01.withListenerFlags (V01.credentials f) "" "" f))
  ∧ (∀ os c tls e,
       V02.TLSConfigResult c = (tls, Some e) →
       V02.main os c = V02.main os (V02.withTLSConfigResult (tls, None) c)).
Proof.
  split.
  - intros os f e Hc Hk Hload. split.
    + unfold buildTLSConfig.
      destruct (decide (V01.tlsCert f = "" ∨ V01.tlsKey f = "")) as [[?|?]|_];
        [contradiction | contradiction |].
      rewrite Hload. reflexivity.
    + unfold V01.main. cbn [V01.version V01.credentials V01.tlsCert V01.tlsKey
        V01.withListenerFlags V01.bindAddr V01.batchMatch V01.batchReplace
        V01.batchHeader V01.groupMatch V01.groupReplace V01.relayAddr
        V01.relayUser V01.relayPassword V01.allDir V01.relayCommand
        V01.failDir V01.script].
      destruct (V01.version f); [reflexivity|].
      destruct (buildAuth (V01.credentials f)) as [auth [err|]]; [reflexivity|].
      unfold buildTLSConfig.
      destruct (decide (V01.tlsCert f = "" ∨ V01.tlsKey f = "")) as [[?|?]|_];
        [contradiction | contradiction |].
      rewrite Hload.
      destruct (decide ("" = "" ∨ "" = "")) as [_|Hn]; [reflexivity|].
      exfalso. apply Hn. left. reflexivity.
  - intros os c tls e Htls. unfold V02.main.
    cbn [V02.withTLSConfigResult V02.Parse V02.Version V02.AuthResult
           V02.TLSConfigResult V02.SocketResult V02.Pidfile V02.PidfileStat
           V02.PidfileCreate V02.Batch V02.Group V02.UpstreamResult
           V02.FailDir V02.Script V02.writePidfile].
    rewrite Htls. reflexivity.
Qed.

Lemma main_drops_tls_error_witness :
  buildTLSConfig (LoadX509KeyPair Sample.os) "cert.pem" "key.pem"
  = (None, Some "open cert.pem: no such file or directory")
  ∧ (∃ s, V01.main Sample.os (V01.withListenerFlags "" "cert.pem" "key.pem" V01.defaults)
          = Serving s ∧ ListenerTLS (listener s) = None)
  ∧ (∃ s, V02.main Sample.os Sample.config = Serving s
          ∧ ListenerTLS (listener s) = None).
Proof.
  destruct main_drops_tls_error as (H01 & H02).
  destruct (H01 Sample.os (V01.withListenerFlags "" "cert.pem" "key.pem" V01.defaults)
              "open cert.pem: no such file or directory"
              ltac:(discriminate) ltac:(discriminate) eq_refl) as (Hbuild & Hmain).
  split_and!.
  - exact Hbuild.
  - rewrite Hmain. eexists. split; reflexivity.
  - rewrite (H02 Sample.os Sample.config None
               "open cert.pem: no such file or directory" eq_refl).
    eexists. split; reflexivity.
Defined.

(** ** Order of the upstream chain *)

(** C2 as stated fails: with both [-all-dir] and [-relay-command] given, the
    command is the first sink of the chain and the archive the second. *)
Lemma buildUpstream_command_precedes_archive :
  let chain := fst (buildUpstream (Create Sample.os) "localhost:25" "" "" "all" "logger") in
  chain = MultiUpstream (ExecUpstream "logger")
            (MultiUpstream (MaildirUpstream "all") (LiveUpstream "localhost:25" "" ""))
  ∧ snd (Send Sample.accepting chain (Sample.digest "1 message"))
    = [ExecUpstream "logger"; MaildirUpstream "all"; LiveUpstream "localhost:25" "" ""]
  ∧ snd (Send Sample.accepting chain (Sample.digest "1 message"))
    ≠ [MaildirUpstream "all"; ExecUpstream "logger"; LiveUpstream "localhost:25" "" ""].
Proof. split_and!; [reflexivity | reflexivity | discriminate]. Qed.

(** C2, amended: when [allDir] and [relayCommand] are both non-empty and
    the archive maildir can be created, [buildUpstream] returns, with a nil
    error, the chain command, archive, primary relay: [Send] hands the
    message to the external command first, to the all-mail maildir second
    and to the primary relay last.  When the maildir cannot be created it
    returns the primary relay alone, with the creation error. *)
Theorem buildUpstream_chain_order :
  ∀ (create : MaildirCreator) relayAddr relayUser relayPassword allDir relayCommand,
    allDir ≠ "" → relayCommand ≠ "" →
    let primary :=
      if decide (relayAddr = "debug") then DebugUpstream
      else LiveUpstream relayAddr relayUser relayPassword in
    let built :=
      buildUpstream create relayAddr relayUser relayPassword allDir relayCommand in
    match create allDir with
    | None =>
        built = (MultiUpstream (ExecUpstream relayCommand)
                   (MultiUpstream (MaildirUpstream allDir) primary), None)
        ∧ ∀ sink msg,
            snd (Send sink (fst built) msg)
            = [ExecUpstream relayCommand; MaildirUpstream allDir; primary]
    | Some err => built = (primary, Some err)
    end.
Proof.
  intros create relayAddr relayUser relayPassword allDir relayCommand Hall Hcmd.
  cbn zeta. unfold buildUpstream.
  destruct (decide (allDir ≠ "")) as [_|Hn]; [|contradiction].
  destruct (create allDir) as [err|]; [reflexivity|].
  destruct (decide (relayCommand ≠ "")) as [_|Hn]; [|contradiction].
  split; [reflexivity|].
  intros sink msg. cbn [fst NewMultiUpstream].
  destruct (decide (relayAddr = "debug")); reflexivity.
Qed.

Lemma buildUpstream_chain_order_witness :
  buildUpstream (Create Sample.os) "debug" "" "" "all" "logger"
  = (MultiUpstream (ExecUpstream "logger")
       (MultiUpstream (MaildirUpstream "all") DebugUpstream), None)
  ∧ ∀ sink msg,
      snd (Send sink (fst (buildUpstream (Create Sample.os) "debug" "" "" "all" "logger")) msg)
      = [ExecUpstream "logger"; MaildirUpstream "all"; DebugUpstream].
Proof.
  exact (buildUpstream_chain_order (Create Sample.os) "debug" "" "" "all" "logger"
           ltac:(discriminate) ltac:(discriminate)).
Defined.

(** ** The coordinator loop *)

Section CoordinatorFacts.

Context {BufferT SummaryT CounterT : Type}.
Variable bufferAdd : ReceivedMessage → BufferT → BufferT.
Variable bufferFlush : bool → Z → BufferT → list SummaryT * BufferT.
Variable counterAdd : Z → CounterT → CounterT.
Variable counterCheckAndAdvance : CounterT → (bool * Z) * CounterT.
Variable render : SummaryT → OutgoingMessage.

Local Abbreviation State := (@Coordinator BufferT CounterT).
Local Abbreviation caseBody' :=
  (caseBody bufferAdd bufferFlush counterAdd counterCheckAndAdvance render).
Local Abbreviation selectStmt' :=
  (selectStmt bufferAdd bufferFlush counterAdd counterCheckAndAdvance render).
Local Abbreviation forSelect' :=
  (forSelect bufferAdd bufferFlush counterAdd counterCheckAndAdvance render).

(** Sending a batch of summaries on an open channel appends their
    renderings, in order. *)
Lemma sendEach_open (summaries : list SummaryT) (st : State) :
  closed (sending st) = false →
  sendEach render summaries st
  = (Normal,
     withSending {| queue := queue (sending st) ++ map render summaries;
                    closed := false |} st).
Proof.
  revert st. induction summaries as [|s rest IH]; intros st Hopen.
  - cbn [sendEach map]. rewrite app_nil_r.
    destruct st as [b r [q c] rl l]. cbn in Hopen. subst c. reflexivity.
  - cbn [sendEach map]. unfold send, chanSend. rewrite Hopen.
    rewrite IH by reflexivity. cbn. rewrite <- app_assoc. reflexivity.
Qed.

(** On a closed channel the first send panics. *)
Lemma sendEach_closed (s : SummaryT) (rest : list SummaryT) (st : State) :
  closed (sending st) = true →
  sendEach render (s :: rest) st = (Panicking "send on closed channel", st).
Proof.
  intros Hclosed. cbn [sendEach]. unfold send, chanSend. rewrite Hclosed.
  reflexivity.
Qed.

Lemma caseBody_done v02 relayAll req now (st : State) :
  closed (sending st) = false →
  caseBody' v02 relayAll (Done req now) st
  = (Break, afterDone bufferFlush render v02 req now st).
Proof.
  intros Hopen. unfold afterDone. cbn [caseBody].
  assert (Hb : buffer (logPrintf "cleaning up"
                 match v02, req with
                 | true, Reload => RequestReload st
                 | _, _ => st
                 end) = buffer st) by (destruct v02, req; reflexivity).
  rewrite Hb. destruct (bufferFlush true now (buffer st)) as [summaries b].
  rewrite sendEach_open by (destruct v02, req; exact Hopen).
  destruct v02, req; cbn; rewrite ?Hopen; reflexivity.
Qed.

(** No case of the [select] lets a [break] through to the loop. *)
Lemma selectStmt_absorbs_break v02 relayAll e (st : State) :
  fst (selectStmt' v02 relayAll e st) ≠ Break.
Proof.
  unfold selectStmt.
  destruct (caseBody' v02 relayAll e st) as [[| |msg] st']; discriminate.
Qed.

(** Whatever arrives, [run] does not return. *)
Lemma forSelect_never_returns v02 relayAll events (st : State) :
  fst (forSelect' v02 relayAll events st) ≠ Returned.
Proof.
  revert st. induction events as [|e rest IH]; intros st.
  - discriminate.
  - cbn [forSelect].
    pose proof (selectStmt_absorbs_break v02 relayAll e st) as Hsel.
    destruct (selectStmt' v02 relayAll e st) as [[| |msg] st'].
    + apply IH.
    + exfalso. apply Hsel. reflexivity.
    + discriminate.
Qed.

(** The [received] case while [sending] is open. *)
Lemma selectStmt_received v02 relayAll m (st : State) :
  closed (sending st) = false →
  selectStmt' v02 relayAll (Received m) st
  = (Normal,
     {| buffer := bufferAdd m (buffer st);
        rateCounter := counterAdd 1 (rateCounter st);
        sending := if relayAll
                   then {| queue := queue (sending st) ++ [Raw m]; closed := false |}
                   else sending st;
        reloadRequested := reloadRequested st;
        log := log st |}).
Proof.
  intros Hopen. unfold selectStmt. cbn [caseBody].
  destruct relayAll; [|reflexivity].
  unfold send, chanSend. cbn. rewrite Hopen. reflexivity.
Qed.

(** The [received] case once [sending] is closed, with [relayAll]. *)
Lemma caseBody_received_closed v02 m (st : State) :
  closed (sending st) = true →
  caseBody' v02 true (Received m) st
  = (Panicking "send on closed channel",
     withRateCounter (counterAdd 1 (rateCounter st))
       (withBuffer (bufferAdd m (buffer st)) st)).
Proof.
  intros Hclosed. cbn [caseBody]. unfold send, chanSend, withRateCounter, withBuffer.
  cbn [sending closed]. rewrite Hclosed. reflexivity.
Qed.

(** C1 (the code departs from it): on [done] the coordinator does flush
    with force, enqueue the rendered summaries and close [sending], but
    the [break] that follows only leaves the [select]: the loop is parked
    in [select] again instead of having returned, it never returns
    whatever arrives later, and a message received afterwards with
    [relayAll] is sent on the closed channel, which panics.  This holds
    for the loop of 0.2.0 and for that of 0.1.0. *)
Theorem run_keeps_looping_after_done :
  ∀ (v02 relayAll : bool) req now (st : State),
    closed (sending st) = false →
    let st' := afterDone bufferFlush render v02 req now st in
    forSelect' v02 relayAll [Done req now] st = (Waiting, st')
    ∧ sending st'
      = {| queue := queue (sending st)
                      ++ map render (fst (bufferFlush true now (buffer st)));
           closed := true |}
    ∧ (∀ events, fst (forSelect' v02 relayAll (Done req now :: events) st) ≠ Returned)
    ∧ (∀ m, fst (forSelect' v02 true [Done req now; Received m] st)
            = Panicked "send on closed channel").
Proof.
  intros v02 relayAll req now st Hopen st'.
  assert (Hsel : ∀ ra, selectStmt' v02 ra (Done req now) st = (Normal, st')).
  { intros ra. unfold selectStmt. rewrite caseBody_done by exact Hopen.
    reflexivity. }
  assert (Hsending : sending st'
      = {| queue := queue (sending st)
                      ++ map render (fst (bufferFlush true now (buffer st)));
           closed := true |}).
  { subst st'. unfold afterDone.
    destruct (bufferFlush true now (buffer st)); reflexivity. }
  split_and!.
  - cbn [forSelect]. rewrite Hsel. reflexivity.
  - exact Hsending.
  - intros events. apply forSelect_never_returns.
  - intros m. cbn [forSelect]. rewrite Hsel.
    unfold selectStmt. rewrite caseBody_received_closed; [reflexivity|].
    rewrite Hsending. reflexivity.
Qed.

(** C6 (the code departs from it, through the same [break] as C1): a
    message received after [done], with [relayAll], is added to the
    buffer and counted, but it gets no entry on [sending]: the send
    panics on the closed channel. *)
Theorem received_after_done_is_not_relayed :
  ∀ (v02 : bool) req now m (st : State),
    closed (sending st) = false →
    let st1 := afterDone bufferFlush render v02 req now st in
    ∃ st2,
      forSelect' v02 true [Done req now; Received m] st
      = (Panicked "send on closed channel", st2)
      ∧ buffer st2 = bufferAdd m (buffer st1)
      ∧ rateCounter st2 = counterAdd 1 (rateCounter st1)
      ∧ sending st2 = sending st1
      ∧ closed (sending st2) = true.
Proof.
  intros v02 req now m st Hopen st1.
  assert (Hclosed : closed (sending st1) = true).
  { subst st1. unfold afterDone.
    destruct (bufferFlush true now (buffer st)); reflexivity. }
  exists (withRateCounter (counterAdd 1 (rateCounter st1))
            (withBuffer (bufferAdd m (buffer st1)) st1)).
  split_and!; try reflexivity; [|exact Hclosed].
  cbn [forSelect]. unfold selectStmt at 1.
  rewrite caseBody_done by exact Hopen. fold st1.
  unfold selectStmt. rewrite caseBody_received_closed by exact Hclosed.
  reflexivity.
Qed.

End CoordinatorFacts.

Lemma run_keeps_looping_after_done_witness :
  closed (sending Sample.busy) = false
  ∧ run BufferAdd BufferFlush RateAdd CheckAndAdvance Sample.render true
      [Done Reload 2] Sample.busy
    = (Waiting, afterDone BufferFlush Sample.render true Reload 2 Sample.busy)
  ∧ queue (sending (afterDone BufferFlush Sample.render true Reload 2 Sample.busy))
    = [Digest {| Sender := "failmail@example.com"; Recipients := ["ops@example.com"];
                 Bytes := "[] 2 messages" |}]
  ∧ fst (run BufferAdd BufferFlush RateAdd CheckAndAdvance Sample.render true
           [Done Reload 2; Received (Sample.received 3 "disk full" "sdc1")] Sample.busy)
    = Panicked "send on closed channel".
Proof.
  pose proof (run_keeps_looping_after_done BufferAdd BufferFlush RateAdd
                CheckAndAdvance Sample.render true true Reload 2 Sample.busy
                eq_refl) as (Hrun & Hsending & _ & Hpanic).
  split_and!.
  - reflexivity.
  - exact Hrun.
  - rewrite Hsending. vm_compute. reflexivity.
  - apply Hpanic.
Defined.

Lemma received_after_done_is_not_relayed_witness :
  ∃ st2,
    run01 BufferAdd BufferFlush RateAdd CheckAndAdvance Sample.render true
      [Done GracefulShutdown 2; Received (Sample.received 3 "disk full" "sdc1")]
      Sample.coordinator
    = (Panicked "send on closed channel", st2)
    ∧ sending st2 = {| queue := []; closed := true |}
    ∧ buckets (rateCounter st2) = [1; 0; 0; 0; 0]%Z
    ∧ dom (summaries (buffer st2)) = {[ "" ]}.
Proof.
  destruct (received_after_done_is_not_relayed BufferAdd BufferFlush RateAdd
              CheckAndAdvance Sample.render false GracefulShutdown 2
              (Sample.received 3 "disk full" "sdc1") Sample.coordinator eq_refl)
    as (st2 & Hrun & Hbuf & Hrate & Hsend & _).
  exists st2. split_and!.
  - exact Hrun.
  - rewrite Hsend. reflexivity.
  - rewrite Hrate. reflexivity.
  - rewrite Hbuf. vm_compute. reflexivity.
Defined.

(** ** The upstream pump *)

Section PumpFacts.

Context {World Spool : Type}.
Variable upstreamSend : OutgoingMessage → World → option error * World.
Variable spoolWrite : string → Spool → option error * Spool.

Local Abbreviation State := (@Pump World Spool).
Local Abbreviation forward' := (forward upstreamSend spoolWrite).

Lemma rangeOver_fold (pending : list OutgoingMessage) (isClosed : bool) (st : State) :
  rangeOver upstreamSend spoolWrite pending isClosed st
  = rangeOver upstreamSend spoolWrite [] isClosed
      (foldl (λ acc msg, forward' msg acc) st pending).
Proof.
  revert st. induction pending as [|msg rest IH]; intros st.
  - reflexivity.
  - cbn [rangeOver foldl]. apply IH.
Qed.

(** C5: the pump handles the messages of [sending] one after the other,
    each from the state the previous one left, whatever the outcome of
    the earlier sends and spool writes.  For one message: when
    [upstream.Send] returns an error, the message's bytes are written to
    the failure maildir; an error of that write adds a log line and
    nothing else.  The pump returns exactly when the channel is closed,
    and then after the last queued message. *)
Theorem sendUpstream_spools_and_continues :
  ∀ (sending : Chan OutgoingMessage) (st : State),
    let st' := foldl (λ acc msg, forward' msg acc) st (queue sending) in
    (sendUpstream upstreamSend spoolWrite sending st
     = if closed sending
       then (Finished, {| world := world st'; spool := spool st';
                          pumpLog := pumpLog st' ++ ["done sending"] |})
       else (Parked, st'))
    ∧ (fst (sendUpstream upstreamSend spoolWrite sending st) = Finished
       ↔ closed sending = true)
    ∧ (∀ msg (s : State),
         world (forward' msg s) = snd (upstreamSend msg (world s))
         ∧ match fst (upstreamSend msg (world s)) with
           | None =>
               spool (forward' msg s) = spool s
               ∧ pumpLog (forward' msg s) = pumpLog s
           | Some sendErr =>
               spool (forward' msg s) = snd (spoolWrite (Contents msg) (spool s))
               ∧ pumpLog (forward' msg s)
                 = pumpLog s ++ ("couldn't send message: " +:+ sendErr)
                     :: match fst (spoolWrite (Contents msg) (spool s)) with
                        | None => []
                        | Some saveErr => ["couldn't save message: " +:+ saveErr]
                        end
           end).
Proof.
  intros sending st st'.
  assert (Hrun : sendUpstream upstreamSend spoolWrite sending st
     = if closed sending
       then (Finished, {| world := world st'; spool := spool st';
                          pumpLog := pumpLog st' ++ ["done sending"] |})
       else (Parked, st')).
  { unfold sendUpstream. rewrite rangeOver_fold. fold st'.
    destruct (closed sending); reflexivity. }
  split_and!.
  - exact Hrun.
  - rewrite Hrun. destruct (closed sending); cbn [fst]; split; congruence.
  - intros msg s. unfold forward.
    destruct (upstreamSend msg (world s)) as [[sendErr|] w]; cbn [fst snd].
    + destruct (spoolWrite (Contents msg) (spool s)) as [[saveErr|] sp];
        cbn [fst snd world spool pumpLog]; split_and!; try reflexivity.
      rewrite <- app_assoc. reflexivity.
    + split_and!; reflexivity.
Qed.

End PumpFacts.

(** The pump against the sample relay and a maildir spool: the refused
    message lands in [cur/] with its bytes, the next message is still
    delivered, and a spool that cannot name its entry only costs a log
    line. *)
Example sendUpstream_sample :
  let raw := Raw (Sample.received 0 "disk full" "sda1") in
  let sending := {| queue := [raw; Sample.digest "1 message"]; closed := true |} in
  let good := sendUpstream Sample.relay (spoolTo Sample.env) sending (Sample.pump "failed") in
  let bad := sendUpstream Sample.relay (spoolTo Sample.noHostname) sending (Sample.pump "failed") in
  fst good = Finished
  ∧ world (snd good) = [Sample.digest "1 message"]
  ∧ cur (spool (snd good)) !! "1393650000.1000_1.test:2,S" = Some (Contents raw)
  ∧ pumpLog (snd good)
    = ["couldn't send message: 554 relay access denied"; "done sending"]
  ∧ fst bad = Finished
  ∧ world (snd bad) = [Sample.digest "1 message"]
  ∧ cur (spool (snd bad)) = ∅
  ∧ pumpLog (snd bad)
    = ["couldn't send message: 554 relay access denied";
       "couldn't save message: couldn't get hostname"; "done sending"].
Proof. cbn zeta. split_and!; vm_compute; reflexivity. Qed.

(** ** The maildir sink *)

(** C8: with hostname "test", pid 1000 and time 1393650000, the first two
    names of a fresh maildir are "1393650000.1000_1.test" and
    "1393650000.1000_2.test"; every call advances the sequence counter by
    one; [Write] stores the bytes in [cur/] under the next name followed by
    ":2,S" and returns that entry name. *)
Theorem maildir_names_in_pinned_environment :
  ∀ (path bytes : string),
    let m0 := newMaildir path in
    let first := NextUniqueName Sample.env m0 in
    let second := NextUniqueName Sample.env (snd first) in
    let written := Write Sample.env bytes m0 in
    fst first = ("1393650000.1000_1.test", None)
    ∧ fst second = ("1393650000.1000_2.test", None)
    ∧ (∀ host now pid m,
         seq (snd (NextUniqueName {| Hostname := inl host; Now := now; Pid := pid |} m))
         = (seq m + 1)%Z)
    ∧ fst written = ("1393650000.1000_1.test:2,S", None)
    ∧ cur (snd written) !! "1393650000.1000_1.test:2,S" = Some bytes
    ∧ dom (cur (snd written)) = {[ "1393650000.1000_1.test:2,S" ]}.
Proof.
  intros path bytes. cbn zeta. split_and!; reflexivity.
Qed.

(** In any environment whose hostname lookup succeeds, the entry written is
    the next unique name followed by ":2,S". *)
Lemma Write_entry host now pid bytes (m : Maildir) :
  let env := {| Hostname := inl host; Now := now; Pid := pid |} in
  let name := fst (fst (NextUniqueName env m)) in
  fst (Write env bytes m) = (name +:+ ":2,S", None)
  ∧ cur (snd (Write env bytes m)) !! (name +:+ ":2,S") = Some bytes.
Proof. cbn zeta. unfold Write. cbn. split; [reflexivity | apply lookup_insert_eq]. Qed.

(** C10: when the hostname lookup fails, [Write] returns that very error
    and leaves the maildir as it was: no entry is created. *)
Theorem Write_hostname_error :
  ∀ (env : NamingEnv) (bytes : string) (m : Maildir) (err : error),
    Hostname env = inr err →
    snd (fst (Write env bytes m)) = Some err
    ∧ snd (Write env bytes m) = m
    ∧ cur (snd (Write env bytes m)) = cur m.
Proof.
  intros env bytes m err Hhost. unfold Write, NextUniqueName. rewrite Hhost.
  split_and!; reflexivity.
Qed.

Lemma Write_hostname_error_witness :
  snd (fst (Write Sample.noHostname "test mail" (newMaildir "test")))
  = Some "couldn't get hostname"
  ∧ cur (snd (Write Sample.noHostname "test mail" (newMaildir "test"))) = ∅.
Proof.
  destruct (Write_hostname_error Sample.noHostname "test mail" (newMaildir "test")
              "couldn't get hostname" eq_refl) as (Herr & _ & Hcur).
  split; [exact Herr | exact Hcur].
Defined.

(** * Further properties of the start-up code *)

(** ** [buildAuth] *)

Lemma cut_colon_sound (s user pass : string) :
  strings.cut s ":" = Some (user, pass) →
  s = user +:+ ":" +:+ pass ∧ ¬ colon_in user.
Proof.
  revert user pass. induction s as [|c s IH]; intros user pass Hcut.
  - discriminate Hcut.
  - cbn [strings.cut strings.stripPrefix] in Hcut.
    destruct (decide (":"%char = c)) as [<-|Hc].
    + injection Hcut as <- <-. split; [reflexivity | intros []].
    + destruct (strings.cut s ":") as [[before after]|] eqn:Hrest; [|discriminate Hcut].
      injection Hcut as <- <-. destruct (IH before after eq_refl) as (Hs & Hu).
      split.
      * rewrite Hs at 1. reflexivity.
      * intros [Heq|Hin]; [congruence | exact (Hu Hin)].
Qed.

Lemma cut_colon_append (user pass : string) :
  ¬ colon_in user → strings.cut (user +:+ ":" +:+ pass) ":" = Some (user, pass).
Proof.
  induction user as [|c user IH]; intros Hu.
  - reflexivity.
  - change (String c user +:+ ":" +:+ pass) with (String c (user +:+ ":" +:+ pass)).
    cbn [strings.cut strings.stripPrefix].
    destruct (decide (":"%char = c)) as [<-|Hc].
    + exfalso. apply Hu. left. reflexivity.
    + rewrite IH; [reflexivity|]. intros Hin. apply Hu. right. exact Hin.
Qed.

(** X1: credentials written as a colon-free user name, a colon and any
    password (empty, or with further colons) are read back by [buildAuth] as
    exactly that user name and that password, with a nil error. *)
Theorem buildAuth_round_trip :
  ∀ user pass : string,
    ¬ colon_in user →
    buildAuth (user +:+ ":" +:+ pass) = (Some (SingleUserPlainAuth user pass), None).
Proof.
  intros user pass Hu. unfold buildAuth.
  destruct (decide (user +:+ ":" +:+ pass = "")) as [Hempty|_].
  - destruct user; discriminate Hempty.
  - cbn [strings.SplitN].
    destruct (decide (":" = "")) as [Heq|_]; [discriminate Heq|].
    cbn [strings.genSplit]. rewrite (cut_colon_append user pass Hu). reflexivity.
Qed.

Lemma buildAuth_round_trip_witness :
  buildAuth ("" +:+ ":" +:+ "a:b:") = (Some (SingleUserPlainAuth "" "a:b:"), None)
  ∧ buildAuth ("ops" +:+ ":" +:+ "") = (Some (SingleUserPlainAuth "ops" ""), None).
Proof.
  split.
  - apply (buildAuth_round_trip "" "a:b:"). intros [].
  - apply (buildAuth_round_trip "ops" ""). unfold colon_in. simpl. intros H.
    repeat (destruct H as [H|H]; [discriminate H|]). exact H.
Defined.

(** X2: what [buildAuth] returns determines what it was given.  An
    authenticator comes with a nil error and only from credentials that are
    its user name, a colon and its password, the user name free of colons;
    the only error is the format error, and only for non-empty credentials
    without a colon; nil and nil come from the empty string alone; an
    authenticator never comes with an error. *)
Theorem buildAuth_inversion :
  ∀ credentials : string,
    match buildAuth credentials with
    | (Some (SingleUserPlainAuth user pass), None) =>
        credentials = user +:+ ":" +:+ pass ∧ ¬ colon_in user
    | (None, Some err) =>
        credentials ≠ "" ∧ ¬ colon_in credentials ∧ err = credentialsFormatError
    | (None, None) => credentials = ""
    | (Some _, Some _) => False
    end.
Proof.
  intros s. unfold buildAuth.
  destruct (decide (s = "")) as [->|Hne]; [reflexivity|].
  cbn [strings.SplitN].
  destruct (decide (":" = "")) as [Heq|_]; [discriminate Heq|].
  cbn [strings.genSplit].
  destruct (strings.cut s ":") as [[user pass]|] eqn:Hcut.
  - cbn. exact (cut_colon_sound s user pass Hcut).
  - cbn. split_and!; [exact Hne | | reflexivity].
    intros Hin. destruct (cut_colon_found s Hin) as (u & p & Hsome & _).
    congruence.
Qed.

(** ** [buildTLSConfig] *)

(** X3: [buildTLSConfig] returns a config only when both paths are given
    and the key pair loads, and the config then holds that one certificate;
    it returns an error only when both paths are given and loading fails,
    and the error is the loader's; it never returns both. *)
Theorem buildTLSConfig_inversion :
  ∀ (load : KeyPairLoader) (certFile keyFile : string),
    match buildTLSConfig load certFile keyFile with
    | (Some config, None) =>
        certFile ≠ "" ∧ keyFile ≠ ""
        ∧ ∃ cert, load certFile keyFile = inl cert ∧ Certificates config = [cert]
    | (None, Some err) =>
        certFile ≠ "" ∧ keyFile ≠ "" ∧ load certFile keyFile = inr err
    | (None, None) => certFile = "" ∨ keyFile = ""
    | (Some _, Some _) => False
    end.
Proof.
  intros load certFile keyFile. unfold buildTLSConfig.
  destruct (decide (certFile = "" ∨ keyFile = "")) as [Hempty|Hboth].
  - exact Hempty.
  - assert (Hc : certFile ≠ "") by (intros ->; apply Hboth; left; reflexivity).
    assert (Hk : keyFile ≠ "") by (intros ->; apply Hboth; right; reflexivity).
    destruct (load certFile keyFile) as [cert|err].
    + split_and!; [exact Hc | exact Hk |]. exists cert. split; reflexivity.
    + split_and!; [exact Hc | exact Hk | reflexivity].
Qed.

(** ** [buildUpstream] *)

(** X4: [buildUpstream] fails exactly when an all-mail directory is given
    and cannot be created, with the creation error as it is; the maildir
    creator is not consulted when [allDir] is empty.  The upstream returned
    beside an error is the primary relay alone, whatever [relayCommand]
    is. *)
Theorem buildUpstream_error :
  ∀ (create : MaildirCreator) relayAddr relayUser relayPassword allDir relayCommand,
    let primary :=
      if decide (relayAddr = "debug") then DebugUpstream
      else LiveUpstream relayAddr relayUser relayPassword in
    let built :=
      buildUpstream create relayAddr relayUser relayPassword allDir relayCommand in
    snd built = (if decide (allDir = "") then None else create allDir)
    ∧ (∀ err, snd built = Some err → fst built = primary).
Proof.
  intros create relayAddr relayUser relayPassword allDir relayCommand.
  cbn zeta. unfold buildUpstream.
  destruct (decide (allDir ≠ "")) as [Hall|Hall];
    destruct (decide (allDir = "")) as [Hempty|Hfull]; try contradiction.
  - destruct (create allDir) as [err|]; cbn [fst snd].
    + split; [reflexivity | intros _ _; reflexivity].
    + split; [reflexivity | intros err Herr; discriminate Herr].
  - cbn [fst snd]. split; [reflexivity | intros err Herr; discriminate Herr].
Qed.

(** X5: whenever [buildUpstream] succeeds, [Send] on the chain it returns
    hands the message to the command if [relayCommand] is given, then to
    the all-mail maildir if [allDir] is given, then to the primary relay:
    the primary relay is always there and always last, and an option left
    empty adds no sink. *)
Theorem buildUpstream_sinks :
  ∀ (create : MaildirCreator) relayAddr relayUser relayPassword allDir relayCommand
    sink msg,
    let primary :=
      if decide (relayAddr = "debug") then DebugUpstream
      else LiveUpstream relayAddr relayUser relayPassword in
    let built :=
      buildUpstream create relayAddr relayUser relayPassword allDir relayCommand in
    snd built = None →
    snd (Send sink (fst built) msg)
    = (if decide (relayCommand = "") then [] else [ExecUpstream relayCommand])
      ++ (if decide (allDir = "") then [] else [MaildirUpstream allDir])
      ++ [primary].
Proof.
  intros create relayAddr relayUser relayPassword allDir relayCommand sink msg.
  cbn zeta. unfold buildUpstream.
  destruct (decide (allDir ≠ "")) as [Hall|Hall];
    destruct (decide (allDir = "")) as [Hempty|Hfull]; try contradiction;
    destruct (decide (relayCommand ≠ "")) as [Hcmd|Hcmd];
    destruct (decide (relayCommand = "")) as [Hnocmd|Hsomecmd]; try contradiction;
    try destruct (create allDir) as [err|]; cbn [fst snd];
    intros Hok; try discriminate Hok;
    destruct (decide (relayAddr = "debug")); reflexivity.
Qed.

Lemma buildUpstream_sinks_witness :
  snd (Send Sample.accepting
         (fst (buildUpstream (Create Sample.os) "localhost:25" "" "" "" "logger"))
         (Sample.digest "1 message"))
  = [ExecUpstream "logger"; LiveUpstream "localhost:25" "" ""]
  ∧ snd (Send Sample.accepting
           (fst (buildUpstream (Create Sample.os) "debug" "" "" "" ""))
           (Sample.digest "1 message"))
    = [DebugUpstream].
Proof.
  split.
  - exact (buildUpstream_sinks (Create Sample.os) "localhost:25" "" "" "" "logger"
             Sample.accepting (Sample.digest "1 message") eq_refl).
  - exact (buildUpstream_sinks (Create Sample.os) "debug" "" "" "" ""
             Sample.accepting (Sample.digest "1 message") eq_refl).
Defined.

(** ** [main] *)

(** X6: start-up of 0.1.0 gets as far as serving exactly when [-version]
    is not given, the credentials parse, the upstream can be built, the
    failure maildir can be created, and the script, if one is given, loads.
    The TLS flags play no part in it. *)
Theorem main_serves_iff :
  ∀ (os : OS) (f : V01.Flags),
    (∃ s, V01.main os f = Serving s)
    ↔ V01.version f = false
      ∧ snd (buildAuth (V01.credentials f)) = None
      ∧ snd (buildUpstream (Create os) (V01.relayAddr f) (V01.relayUser f)
               (V01.relayPassword f) (V01.allDir f) (V01.relayCommand f)) = None
      ∧ Create os (V01.failDir f) = None
      ∧ (V01.script f = "" ∨ runScript os (V01.script f) = None).
Proof.
  intros os f. unfold V01.main.
  destruct (V01.version f).
  { split; [intros [s Hs]; discriminate Hs | intros (Hv & _); discriminate Hv]. }
  destruct (buildAuth (V01.credentials f)) as [auth [authErr|]]; cbn [snd].
  { split; [intros [s Hs]; discriminate Hs | intros (_ & He & _); discriminate He]. }
  destruct (buildTLSConfig (LoadX509KeyPair os) (V01.tlsCert f) (V01.tlsKey f))
    as [tlsConfig tlsErr].
  destruct (buildUpstream (Create os) (V01.relayAddr f) (V01.relayUser f)
              (V01.relayPassword f) (V01.allDir f) (V01.relayCommand f))
    as [up [upErr|]]; cbn [snd].
  { split; [intros [s Hs]; discriminate Hs | intros (_ & _ & He & _); discriminate He]. }
  destruct (Create os (V01.failDir f)) as [dirErr|].
  { split; [intros [s Hs]; discriminate Hs | intros (_ & _ & _ & He & _); discriminate He]. }
  destruct (decide (V01.script f ≠ "")) as [Hscript|Hnoscript].
  - destruct (runScript os (V01.script f)) as [scriptErr|].
    + split; [intros [s Hs]; discriminate Hs|].
      intros (_ & _ & _ & _ & [He|He]); [contradiction | discriminate He].
    + split; [|intros _; eexists; reflexivity].
      intros _. split_and!; try reflexivity. right. reflexivity.
  - split; [|intros _; eexists; reflexivity].
    intros _. split_and!; try reflexivity. left.
    destruct (decide (V01.script f = "")) as [He|Hn]; [exact He | contradiction].
Qed.

(** X7: start-up of 0.1.0 returns early exactly when [-version] is given;
    nothing else is looked at then, not even malformed credentials. *)
Theorem main_returns_early_iff :
  ∀ (os : OS) (f : V01.Flags),
    V01.main os f = ReturnedEarly ↔ V01.version f = true.
Proof.
  intros os f. unfold V01.main.
  destruct (V01.version f); [split; reflexivity|].
  split; [|intros Hv; discriminate Hv]. intros Hmain. exfalso.
  destruct (buildAuth (V01.credentials f)) as [auth [authErr|]]; [discriminate Hmain|].
  destruct (buildTLSConfig (LoadX509KeyPair os) (V01.tlsCert f) (V01.tlsKey f))
    as [tlsConfig tlsErr].
  destruct (buildUpstream (Create os) (V01.relayAddr f) (V01.relayUser f)
              (V01.relayPassword f) (V01.allDir f) (V01.relayCommand f))
    as [up [upErr|]]; [discriminate Hmain|].
  destruct (Create os (V01.failDir f)) as [dirErr|]; [discriminate Hmain|].
  destruct (decide (V01.script f ≠ "")); [|discriminate Hmain].
  destruct (runScript os (V01.script f)); discriminate Hmain.
Qed.

Lemma buildAuth_nil_iff (credentials : string) :
  snd (buildAuth credentials) = None →
  (fst (buildAuth credentials) = None ↔ credentials = "").
Proof.
  unfold buildAuth.
  destruct (decide (credentials = "")) as [->|Hne]; [intros _; split; reflexivity|].
  cbn [strings.SplitN].
  destruct (decide (":" = "")) as [Heq|_]; [discriminate Heq|].
  cbn [strings.genSplit].
  destruct (strings.cut credentials ":") as [[user pass]|]; cbn.
  - intros _. split; [discriminate | contradiction].
  - discriminate.
Qed.

Lemma buildAuth_some (credentials user pass : string) :
  fst (buildAuth credentials) = Some (SingleUserPlainAuth user pass) →
  credentials = user +:+ ":" +:+ pass.
Proof.
  unfold buildAuth.
  destruct (decide (credentials = "")) as [->|Hne]; [discriminate|].
  cbn [strings.SplitN].
  destruct (decide (":" = "")) as [Heq|_]; [discriminate Heq|].
  cbn [strings.genSplit].
  destruct (strings.cut credentials ":") as [[u p]|] eqn:Hcut; cbn; [|discriminate].
  intros [= <- <-]. exact (proj1 (cut_colon_sound _ _ _ Hcut)).
Qed.

Lemma buildTLSConfig_nil_iff (load : KeyPairLoader) (certFile keyFile : string) :
  fst (buildTLSConfig load certFile keyFile) = None
  ↔ certFile = "" ∨ keyFile = "" ∨ ∃ err, load certFile keyFile = inr err.
Proof.
  unfold buildTLSConfig.
  destruct (decide (certFile = "" ∨ keyFile = "")) as [Hempty|Hboth].
  - split; [intros _; tauto | reflexivity].
  - destruct (load certFile keyFile) as [cert|err]; cbn.
    + split; [discriminate|]. intros [He|[He|[err He]]].
      * exfalso. apply Hboth. left. exact He.
      * exfalso. apply Hboth. right. exact He.
      * discriminate He.
    + split; [|reflexivity]. intros _. right. right. exists err. reflexivity.
Qed.

(** What 0.1.0 serves with is what the builders returned. *)
Lemma main_serving_components (os : OS) (f : V01.Flags) (s : Server) :
  V01.main os f = Serving s →
  snd (buildAuth (V01.credentials f)) = None
  ∧ listener s
    = {| ListenOn := V01.bindAddr f;
         ListenerAuth := fst (buildAuth (V01.credentials f));
         ListenerTLS := fst (buildTLSConfig (LoadX509KeyPair os)
                               (V01.tlsCert f) (V01.tlsKey f)) |}.
Proof.
  unfold V01.main.
  destruct (V01.version f); [discriminate|].
  destruct (buildAuth (V01.credentials f)) as [auth [authErr|]]; [discriminate|].
  destruct (buildTLSConfig (LoadX509KeyPair os) (V01.tlsCert f) (V01.tlsKey f))
    as [tlsConfig tlsErr].
  destruct (buildUpstream (Create os) (V01.relayAddr f) (V01.relayUser f)
              (V01.relayPassword f) (V01.allDir f) (V01.relayCommand f))
    as [up [upErr|]]; [discriminate|].
  destruct (Create os (V01.failDir f)) as [dirErr|]; [discriminate|].
  destruct (decide (V01.script f ≠ "")).
  - destruct (runScript os (V01.script f)); [discriminate|].
    intros [= <-]. split; reflexivity.
  - intros [= <-]. split; reflexivity.
Qed.

(** X8: when 0.1.0 serves, the listener asks for authentication exactly
    when credentials were given, with the user name and password read from
    them; it has a TLS config exactly when both TLS paths were given and
    the key pair loaded; and it listens on the [-bind] address. *)
Theorem main_listener :
  ∀ (os : OS) (f : V01.Flags) (s : Server),
    V01.main os f = Serving s →
    ListenOn (listener s) = V01.bindAddr f
    ∧ (ListenerAuth (listener s) = None ↔ V01.credentials f = "")
    ∧ (∀ user pass,
         ListenerAuth (listener s) = Some (SingleUserPlainAuth user pass) →
         V01.credentials f = user +:+ ":" +:+ pass)
    ∧ (ListenerTLS (listener s) = None
       ↔ V01.tlsCert f = "" ∨ V01.tlsKey f = ""
         ∨ ∃ err, LoadX509KeyPair os (V01.tlsCert f) (V01.tlsKey f) = inr err).
Proof.
  intros os f s Hmain.
  destruct (main_serving_components os f s Hmain) as (Hauth & ->).
  cbn [listener ListenOn ListenerAuth ListenerTLS]. split_and!.
  - reflexivity.
  - exact (buildAuth_nil_iff _ Hauth).
  - intros user pass. apply buildAuth_some.
  - apply buildTLSConfig_nil_iff.
Qed.

Lemma main_listener_witness :
  ∃ s, V01.main Sample.os (V01.withListenerFlags "ops:s3cret" "cert.pem" "key.pem" V01.defaults)
       = Serving s
       ∧ ListenOn (listener s) = "localhost:2525"
       ∧ ListenerAuth (listener s) = Some (SingleUserPlainAuth "ops" "s3cret")
       ∧ ListenerTLS (listener s) = None.
Proof.
  eexists. split; [reflexivity|].
  destruct (main_listener Sample.os
              (V01.withListenerFlags "ops:s3cret" "cert.pem" "key.pem" V01.defaults)
              _ eq_refl) as (Hbind & _ & _ & Htls).
  split_and!.
  - exact Hbind.
  - reflexivity.
  - apply Htls. right. right. eexists. reflexivity.
Defined.

(** X9: start-up of 0.2.0 gets as far as serving exactly when the
    configuration was read without error and not just written out,
    [Version] is off, the authenticator and the socket were obtained, the
    pidfile, if one is configured, did not exist and could be created, the
    upstream was built, the failure maildir could be created, and the
    script, if any, loads.  The result of [config.TLSConfig()] plays no
    part in it. *)
Theorem main02_serves_iff :
  ∀ (os : OS) (c : V02.Config),
    (∃ s, V02.main os c = Serving s)
    ↔ V02.Parse c = (false, None)
      ∧ V02.Version c = false
      ∧ snd (V02.AuthResult c) = None
      ∧ snd (V02.SocketResult c) = None
      ∧ (V02.Pidfile c = ""
         ∨ V02.PidfileStat c = V02.StatNotExist ∧ V02.PidfileCreate c = None)
      ∧ snd (V02.UpstreamResult c) = None
      ∧ Create os (V02.FailDir c) = None
      ∧ (V02.Script c = "" ∨ runScript os (V02.Script c) = None).
Proof.
  intros os c. unfold V02.main, V02.writePidfile.
  destruct (V02.Parse c) as [wrote [parseErr|]].
  { split; [intros [s Hs]; discriminate Hs | intros (He & _); discriminate He]. }
  destruct wrote.
  { split; [intros [s Hs]; discriminate Hs | intros (He & _); discriminate He]. }
  destruct (V02.Version c).
  { split; [intros [s Hs]; discriminate Hs | intros (_ & He & _); discriminate He]. }
  destruct (V02.AuthResult c) as [auth [authErr|]]; cbn [snd].
  { split; [intros [s Hs]; discriminate Hs | intros (_ & _ & He & _); discriminate He]. }
  destruct (V02.TLSConfigResult c) as [tlsConfig tlsErr].
  destruct (V02.SocketResult c) as [socket [socketErr|]]; cbn [snd].
  { split; [intros [s Hs]; discriminate Hs | intros (_ & _ & _ & He & _); discriminate He]. }
  assert (Hpid :
    (if decide (V02.Pidfile c ≠ "")
     then match V02.PidfileStat c with
          | V02.StatOk => Some ("pidfile " +:+ V02.Pidfile c +:+ " already exists")
          | V02.StatNotExist =>
              match V02.PidfileCreate c with
              | Some err =>
                  Some ("could not write pidfile " +:+ V02.Pidfile c +:+ ": " +:+ err)
              | None => None
              end
          | V02.StatFailed err =>
              Some ("could not write pidfile " +:+ V02.Pidfile c +:+ ": " +:+ err)
          end
     else None) = None
    ↔ V02.Pidfile c = ""
      ∨ V02.PidfileStat c = V02.StatNotExist ∧ V02.PidfileCreate c = None).
  { destruct (decide (V02.Pidfile c ≠ "")) as [Hp|Hp].
    - destruct (V02.PidfileStat c); [| destruct (V02.PidfileCreate c) |];
        (split; [try discriminate; intros _; right; split; reflexivity
                | intros [He|[Hs Hc]]; [contradiction | try discriminate Hs; try discriminate Hc; try reflexivity]]).
    - split; [|reflexivity]. intros _. left.
      destruct (decide (V02.Pidfile c = "")) as [He|Hn]; [exact He | contradiction]. }
  destruct (if decide (V02.Pidfile c ≠ "") then _ else None) as [pidMsg|].
  { split; [intros [s Hs]; discriminate Hs|].
    intros (_ & _ & _ & _ & Hp & _). apply Hpid in Hp. discriminate Hp. }
  destruct (V02.UpstreamResult c) as [up [upErr|]]; cbn [snd].
  { split; [intros [s Hs]; discriminate Hs
           | intros (_ & _ & _ & _ & _ & He & _); discriminate He]. }
  destruct (Create os (V02.FailDir c)) as [dirErr|].
  { split; [intros [s Hs]; discriminate Hs
           | intros (_ & _ & _ & _ & _ & _ & He & _); discriminate He]. }
  destruct (decide (V02.Script c ≠ "")) as [Hscript|Hnoscript].
  - destruct (runScript os (V02.Script c)) as [scriptErr|].
    + split; [intros [s Hs]; discriminate Hs|].
      intros (_ & _ & _ & _ & _ & _ & _ & [He|He]); [contradiction | discriminate He].
    + split; [|intros _; eexists; reflexivity].
      intros _. split_and!; try reflexivity; [apply Hpid; reflexivity | right; reflexivity].
  - split; [|intros _; eexists; reflexivity].
    intros _. split_and!; try reflexivity; [apply Hpid; reflexivity |].
    left. destruct (decide (V02.Script c = "")) as [He|Hn]; [exact He | contradiction].
Qed.

(** * Further properties of the coordinator and the pump *)

Section CoordinatorRuns.

Context {BufferT SummaryT CounterT : Type}.
Variable bufferAdd : ReceivedMessage → BufferT → BufferT.
Variable bufferFlush : bool → Z → BufferT → list SummaryT * BufferT.
Variable counterAdd : Z → CounterT → CounterT.
Variable counterCheckAndAdvance : CounterT → (bool * Z) * CounterT.
Variable render : SummaryT → OutgoingMessage.

Local Abbreviation State := (@Coordinator BufferT CounterT).
Local Abbreviation caseBody' :=
  (caseBody bufferAdd bufferFlush counterAdd counterCheckAndAdvance render).
Local Abbreviation selectStmt' :=
  (selectStmt bufferAdd bufferFlush counterAdd counterCheckAndAdvance render).
Local Abbreviation forSelect' :=
  (forSelect bufferAdd bufferFlush counterAdd counterCheckAndAdvance render).

Lemma open_channel_eta (c : Chan OutgoingMessage) :
  closed c = false → c = {| queue := queue c ++ []; closed := false |}.
Proof. destruct c as [q cl]. cbn. intros ->. rewrite app_nil_r. reflexivity. Qed.

(** A run over two stretches of events is the run over the second from
    where the first one waits. *)
Lemma forSelect_app v02 relayAll (first second : list Event) (st : State) :
  forSelect' v02 relayAll (first ++ second) st
  = match forSelect' v02 relayAll first st with
    | (Waiting, st') => forSelect' v02 relayAll second st'
    | stopped => stopped
    end.
Proof.
  revert st. induction first as [|e rest IH]; intros st.
  - reflexivity.
  - cbn [app forSelect].
    destruct (selectStmt' v02 relayAll e st) as [[| |msg] st']; [apply IH | | ];
      reflexivity.
Qed.

(** One iteration on an open channel, for anything but [done]: it ends
    normally, [sending] is still open and has only grown, by the relayed
    message if there is one, and no reload has been noted. *)
Lemma selectStmt_open v02 relayAll e (st : State) :
  closed (sending st) = false → isDone e = false →
  ∃ st' sent,
    selectStmt' v02 relayAll e st = (Normal, st')
    ∧ sending st' = {| queue := queue (sending st) ++ sent; closed := false |}
    ∧ reloadRequested st' = reloadRequested st
    ∧ (relayAll = true → map Raw (arrivals [e]) `sublist_of` sent)
    ∧ (relayAll = false → arrivals [e] ≠ [] → sent = []).
Proof.
  intros Hopen Hnot. destruct e as [now| |m|req now]; [| | |discriminate Hnot].
  - unfold selectStmt. cbn [caseBody].
    destruct (bufferFlush false now (buffer st)) as [summaries b].
    rewrite sendEach_open by exact Hopen.
    eexists _, (map render summaries). split_and!; try reflexivity.
    + intros _. apply sublist_nil_l.
    + intros _ Harr. exfalso. apply Harr. reflexivity.
  - unfold selectStmt. cbn [caseBody].
    destruct (counterCheckAndAdvance (rateCounter st)) as [[exceeded count] r].
    exists (if exceeded
            then logPrintf ("rate limit check exceeded: " +:+ fmtInt count
                              +:+ " messages") (withRateCounter r st)
            else withRateCounter r st), [].
    destruct exceeded; (split_and!; [reflexivity | | reflexivity | | ]);
      try (apply (open_channel_eta (sending st) Hopen));
      try (intros _; apply sublist_nil_l); intros _ _; reflexivity.
  - rewrite selectStmt_received by exact Hopen.
    eexists _, (if relayAll then [Raw m] else []). split_and!; try reflexivity.
    + cbn [sending]. destruct relayAll; [reflexivity|].
      apply (open_channel_eta (sending st) Hopen).
    + intros ->. reflexivity.
    + intros ->. reflexivity.
Qed.

(** A run of events without [done], from an open channel. *)
Lemma forSelect_open v02 relayAll events (st : State) :
  closed (sending st) = false → forallb (λ e, negb (isDone e)) events = true →
  ∃ st' sent,
    forSelect' v02 relayAll events st = (Waiting, st')
    ∧ sending st' = {| queue := queue (sending st) ++ sent; closed := false |}
    ∧ reloadRequested st' = reloadRequested st
    ∧ (relayAll = true → map Raw (arrivals events) `sublist_of` sent).
Proof.
  revert st. induction events as [|e rest IH]; intros st Hopen Hfree.
  - exists st, []. split_and!; try reflexivity.
    apply (open_channel_eta (sending st) Hopen).
  - cbn [forallb] in Hfree. apply andb_prop in Hfree as [He Hrest].
    apply negb_true_iff in He.
    destruct (selectStmt_open v02 relayAll e st Hopen He)
      as (st1 & sent1 & Hstep & Hsend1 & Hreload1 & Hsub1 & _).
    assert (Hopen1 : closed (sending st1) = false) by (rewrite Hsend1; reflexivity).
    destruct (IH st1 Hopen1 Hrest) as (st2 & sent2 & Hrun & Hsend2 & Hreload2 & Hsub2).
    exists st2, (sent1 ++ sent2). cbn [forSelect]. rewrite Hstep. split_and!.
    + exact Hrun.
    + rewrite Hsend2, Hsend1. cbn [queue]. rewrite <- app_assoc. reflexivity.
    + congruence.
    + intros Hrelay. change (e :: rest) with ([e] ++ rest).
      unfold arrivals in *. rewrite bind_app, map_app.
      apply sublist_app; [apply Hsub1 | apply Hsub2]; exact Hrelay.
Qed.

(** X10: as long as no request arrives on [done], [run] (either revision)
    does not panic and does not close [sending]: after any such events it
    is parked in [select], the channel is open and holds what it held
    before followed by what was sent, and no reload has been noted. *)
Theorem run_without_done :
  ∀ (v02 relayAll : bool) (events : list Event) (st : State),
    closed (sending st) = false →
    forallb (λ e, negb (isDone e)) events = true →
    ∃ st' sent,
      forSelect' v02 relayAll events st = (Waiting, st')
      ∧ sending st' = {| queue := queue (sending st) ++ sent; closed := false |}
      ∧ reloadRequested st' = reloadRequested st.
Proof.
  intros v02 relayAll events st Hopen Hfree.
  destruct (forSelect_open v02 relayAll events st Hopen Hfree)
    as (st' & sent & Hrun & Hsend & Hreload & _).
  exists st', sent. split_and!; assumption.
Qed.

(** X11: with [relayAll], the messages received before any [done] request
    are all on [sending] afterwards, in their order of arrival (summaries
    flushed by ticks may sit between them). *)
Theorem run_relays_in_arrival_order :
  ∀ (v02 : bool) (events : list Event) (st : State),
    closed (sending st) = false →
    forallb (λ e, negb (isDone e)) events = true →
    ∃ sent,
      queue (sending (snd (forSelect' v02 true events st)))
      = queue (sending st) ++ sent
      ∧ map Raw (arrivals events) `sublist_of` sent.
Proof.
  intros v02 events st Hopen Hfree.
  destruct (forSelect_open v02 true events st Hopen Hfree)
    as (st' & sent & Hrun & Hsend & _ & Hsub).
  exists sent. rewrite Hrun. cbn [snd]. rewrite Hsend. split; [reflexivity|].
  apply Hsub. reflexivity.
Qed.

(** One iteration once [sending] is closed: the channel is left as it is,
    no [break] gets out, and a [done] request ends in a panic. *)
Lemma selectStmt_closed v02 relayAll e (st : State) :
  closed (sending st) = true →
  sending (snd (selectStmt' v02 relayAll e st)) = sending st
  ∧ (isDone e = true → ∃ msg, fst (selectStmt' v02 relayAll e st) = Panicking msg).
Proof.
  intros Hclosed. destruct e as [now| |m|req now].
  - unfold selectStmt. cbn [caseBody].
    destruct (bufferFlush false now (buffer st)) as [[|s rest] b].
    + split; [reflexivity | discriminate].
    + rewrite sendEach_closed by exact Hclosed. split; [reflexivity | discriminate].
  - unfold selectStmt. cbn [caseBody].
    destruct (counterCheckAndAdvance (rateCounter st)) as [[[|] count] r];
      (split; [reflexivity | discriminate]).
  - unfold selectStmt. destruct relayAll.
    + rewrite caseBody_received_closed by exact Hclosed.
      split; [reflexivity | discriminate].
    + split; [reflexivity | discriminate].
  - unfold selectStmt. cbn [caseBody].
    set (st0 := logPrintf "cleaning up"
                  match v02, req with
                  | true, Reload => RequestReload st
                  | _, _ => st
                  end).
    assert (Hs0 : sending st0 = sending st) by (destruct v02, req; reflexivity).
    destruct (bufferFlush true now (buffer st0)) as [[|s rest] b].
    + cbn [sendEach]. change (sending (withBuffer b st0)) with (sending st0).
      unfold chanClose. rewrite Hs0, Hclosed.
      split; [exact Hs0 | intros _; eexists; reflexivity].
    + rewrite sendEach_closed
        by (change (sending (withBuffer b st0)) with (sending st0);
            rewrite Hs0; exact Hclosed).
      split; [exact Hs0 | intros _; eexists; reflexivity].
Qed.

(** X12: once [sending] is closed, nothing the loop does afterwards changes
    the channel: whatever events follow, its queue is the one it had when
    it was closed, and it stays closed. *)
Theorem run_leaves_closed_channel_alone :
  ∀ (v02 relayAll : bool) (events : list Event) (st : State),
    closed (sending st) = true →
    sending (snd (forSelect' v02 relayAll events st)) = sending st.
Proof.
  intros v02 relayAll events. induction events as [|e rest IH]; intros st Hclosed.
  - reflexivity.
  - cbn [forSelect].
    destruct (selectStmt_closed v02 relayAll e st Hclosed) as (Hsame & _).
    destruct (selectStmt' v02 relayAll e st) as [[| |msg] st']; cbn [snd] in *.
    + rewrite IH by (rewrite Hsame; exact Hclosed). exact Hsame.
    + exact Hsame.
    + exact Hsame.
Qed.

(** X13: [run] and [run01] have no way out of their loop: for every
    sequence of events and every state, the function has not returned; it
    is parked in [select] or has panicked. *)
Theorem run_never_returns :
  ∀ (relayAll : bool) (events : list Event) (st : State),
    fst (run bufferAdd bufferFlush counterAdd counterCheckAndAdvance render
           relayAll events st) ≠ Returned
    ∧ fst (run01 bufferAdd bufferFlush counterAdd counterCheckAndAdvance render
             relayAll events st) ≠ Returned.
Proof.
  intros relayAll events st. unfold run, run01.
  split; apply forSelect_never_returns.
Qed.

(** X14: a second request on [done] cannot be served: once a first one has
    been handled, whatever happens in between, the loop has panicked by
    the time the second one is handled. *)
Theorem run_second_done_panics :
  ∀ (v02 relayAll : bool) req now (events : list Event) req' now' (st : State),
    closed (sending st) = false →
    ∃ msg,
      fst (forSelect' v02 relayAll (Done req now :: events ++ [Done req' now']) st)
      = Panicked msg.
Proof.
  intros v02 relayAll req now events req' now' st Hopen.
  cbn [forSelect]. unfold selectStmt at 1. rewrite caseBody_done by exact Hopen.
  assert (Hclosed : closed (sending (afterDone bufferFlush render v02 req now st)) = true).
  { unfold afterDone. destruct (bufferFlush true now (buffer st)); reflexivity. }
  revert Hclosed. generalize (afterDone bufferFlush render v02 req now st) as st1.
  induction events as [|e rest IH]; intros st1 Hclosed.
  - cbn [app forSelect].
    destruct (selectStmt_closed v02 relayAll (Done req' now') st1 Hclosed)
      as (_ & Hpanic).
    destruct (Hpanic eq_refl) as (msg & Hmsg).
    destruct (selectStmt' v02 relayAll (Done req' now') st1) as [c st2].
    cbn [fst] in Hmsg. subst c. exists msg. reflexivity.
  - cbn [app forSelect].
    destruct (selectStmt_closed v02 relayAll e st1 Hclosed) as (Hsame & _).
    pose proof (selectStmt_absorbs_break bufferAdd bufferFlush counterAdd
                  counterCheckAndAdvance render v02 relayAll e st1) as Hbreak.
    destruct (selectStmt' v02 relayAll e st1) as [[| |msg] st2]; cbn [fst snd] in *.
    + apply IH. rewrite Hsame. exact Hclosed.
    + exfalso. apply Hbreak. reflexivity.
    + exists msg. reflexivity.
Qed.

(** X15: a reload is noted for a [Reload] request in 0.2.0 and for nothing
    else: after events without [done] followed by a request, the reload
    flag of 0.2.0 is set if the request is [Reload] and is otherwise what
    it was, and that of 0.1.0 is what it was in either case. *)
Theorem run_notes_reload :
  ∀ (relayAll : bool) (events : list Event) req now (st : State),
    closed (sending st) = false →
    forallb (λ e, negb (isDone e)) events = true →
    reloadRequested
      (snd (run bufferAdd bufferFlush counterAdd counterCheckAndAdvance render
              relayAll (events ++ [Done req now]) st))
    = match req with Reload => true | GracefulShutdown => reloadRequested st end
    ∧ reloadRequested
        (snd (run01 bufferAdd bufferFlush counterAdd counterCheckAndAdvance render
                relayAll (events ++ [Done req now]) st))
      = reloadRequested st.
Proof.
  intros relayAll events req now st Hopen Hfree. unfold run, run01.
  split.
  - destruct (forSelect_open true relayAll events st Hopen Hfree)
      as (st' & sent & Hrun & Hsend & Hreload & _).
    rewrite forSelect_app, Hrun. cbn [forSelect]. unfold selectStmt.
    rewrite caseBody_done by (rewrite Hsend; reflexivity).
    cbn [snd]. unfold afterDone.
    destruct (bufferFlush true now (buffer st')). destruct req; cbn; congruence.
  - destruct (forSelect_open false relayAll events st Hopen Hfree)
      as (st' & sent & Hrun & Hsend & Hreload & _).
    rewrite forSelect_app, Hrun. cbn [forSelect]. unfold selectStmt.
    rewrite caseBody_done by (rewrite Hsend; reflexivity).
    cbn [snd]. unfold afterDone.
    destruct (bufferFlush true now (buffer st')). destruct req; cbn; congruence.
Qed.

Lemma selectStmt_sameButSending v02 e (a b : State) :
  sameButSending a b → isDone e = false →
  ∃ a' b',
    selectStmt' v02 true e a = (Normal, a')
    ∧ selectStmt' v02 false e b = (Normal, b')
    ∧ sameButSending a' b'.
Proof.
  intros (Hbuf & Hrate & Hreload & Hlog & Ha & Hb) Hnot.
  destruct a as [ba ra [qa ca] rla la], b as [bb rb [qb cb] rlb lb].
  cbn in Hbuf, Hrate, Hreload, Hlog, Ha, Hb. subst.
  destruct e as [now| |m|req now]; [| | |discriminate Hnot].
  - unfold selectStmt. cbn [caseBody buffer].
    destruct (bufferFlush false now bb) as [summaries b'].
    rewrite !sendEach_open by reflexivity.
    eexists _, _. unfold sameButSending. split_and!; reflexivity.
  - unfold selectStmt. cbn [caseBody rateCounter].
    destruct (counterCheckAndAdvance rb) as [[[|] count] r'];
      (eexists _, _; unfold sameButSending; split_and!; reflexivity).
  - rewrite !selectStmt_received by reflexivity.
    eexists _, _. unfold sameButSending. split_and!; reflexivity.
Qed.

Lemma forSelect_sameButSending v02 events (a b : State) :
  sameButSending a b →
  forallb (λ e, negb (isDone e)) events = true →
  sameButSending (snd (forSelect' v02 true events a))
    (snd (forSelect' v02 false events b)).
Proof.
  revert a b. induction events as [|e rest IH]; intros a b Hsame Hfree.
  - exact Hsame.
  - cbn [forallb] in Hfree. apply andb_prop in Hfree as [He Hrest].
    apply negb_true_iff in He.
    destruct (selectStmt_sameButSending v02 e a b Hsame He)
      as (a' & b' & Hstepa & Hstepb & Hsame').
    cbn [forSelect]. rewrite Hstepa, Hstepb. apply IH; assumption.
Qed.

(** X16: [relayAll] changes what is put on [sending] and nothing else: over
    the same events without [done], the buffer, the rate counter, the log
    and the reload flag are the same with and without it. *)
Theorem run_relayAll_only_sends :
  ∀ (v02 : bool) (events : list Event) (st : State),
    closed (sending st) = false →
    forallb (λ e, negb (isDone e)) events = true →
    let relaying := snd (forSelect' v02 true events st) in
    let summarizing := snd (forSelect' v02 false events st) in
    buffer relaying = buffer summarizing
    ∧ rateCounter relaying = rateCounter summarizing
    ∧ log relaying = log summarizing
    ∧ reloadRequested relaying = reloadRequested summarizing.
Proof.
  intros v02 events st Hopen Hfree. cbn zeta.
  assert (Hsame : sameButSending st st).
  { unfold sameButSending. split_and!; try reflexivity; exact Hopen. }
  destruct (forSelect_sameButSending v02 events st st Hsame Hfree)
    as (Hbuf & Hrate & Hreload & Hlog & _).
  split_and!; assumption.
Qed.

End CoordinatorRuns.

Section PumpRuns.

Context {World Spool : Type}.
Variable upstreamSend : OutgoingMessage → World → option error * World.
Variable spoolWrite : string → Spool → option error * Spool.

Local Abbreviation State := (@Pump World Spool).
Local Abbreviation sendUpstream' := (sendUpstream upstreamSend spoolWrite).

Lemma sendUpstream_outcome (sending : Chan OutgoingMessage) (st : State) :
  fst (sendUpstream' sending st) = if closed sending then Finished else Parked.
Proof.
  unfold sendUpstream. rewrite rangeOver_fold. cbn [rangeOver].
  destruct (closed sending); reflexivity.
Qed.

(** X17: the pump picks up where it parked: forwarding what the channel
    holds, parking, and forwarding what arrives later gives the same state,
    log and outcome as forwarding all the messages in one go. *)
Theorem sendUpstream_resumes :
  ∀ (earlier later : list OutgoingMessage) (isClosed : bool) (st : State),
    sendUpstream' {| queue := earlier ++ later; closed := isClosed |} st
    = sendUpstream' {| queue := later; closed := isClosed |}
        (snd (sendUpstream' {| queue := earlier; closed := false |} st)).
Proof.
  intros earlier later isClosed st. unfold sendUpstream. cbn [queue closed].
  revert st. induction earlier as [|msg rest IH]; intros st.
  - reflexivity.
  - cbn [app rangeOver]. apply IH.
Qed.

(** X18: the failure spool is written for failed sends only.  If the
    upstream accepts every message in the channel, the pump leaves the
    spool as it was and logs nothing but its final "done sending". *)
Theorem sendUpstream_all_accepted :
  ∀ (sending : Chan OutgoingMessage) (st : State),
    (∀ msg w, In msg (queue sending) → fst (upstreamSend msg w) = None) →
    spool (snd (sendUpstream' sending st)) = spool st
    ∧ pumpLog (snd (sendUpstream' sending st))
      = pumpLog st ++ (if closed sending then ["done sending"] else []).
Proof.
  intros [pending isClosed] st. unfold sendUpstream. cbn [queue closed].
  revert st. induction pending as [|msg rest IH]; intros st Hok.
  - cbn [rangeOver]. destruct isClosed; cbn [snd spool pumpLog].
    + split; reflexivity.
    + rewrite app_nil_r. split; reflexivity.
  - cbn [rangeOver].
    assert (Hfwd : spool (forward upstreamSend spoolWrite msg st) = spool st
                   ∧ pumpLog (forward upstreamSend spoolWrite msg st) = pumpLog st).
    { unfold forward. pose proof (Hok msg (world st) (or_introl eq_refl)) as Hsend.
      destruct (upstreamSend msg (world st)) as [[e|] w]; [discriminate Hsend|].
      split; reflexivity. }
    destruct Hfwd as (Hspool & Hlog).
    destruct (IH (forward upstreamSend spoolWrite msg st)) as (IHspool & IHlog).
    { intros msg' w Hin. apply Hok. right. exact Hin. }
    rewrite IHspool, IHlog, Hspool, Hlog. split; reflexivity.
Qed.

End PumpRuns.

Section Shutdown.

Context {BufferT SummaryT CounterT World Spool : Type}.
Variable bufferAdd : ReceivedMessage → BufferT → BufferT.
Variable bufferFlush : bool → Z → BufferT → list SummaryT * BufferT.
Variable counterAdd : Z → CounterT → CounterT.
Variable counterCheckAndAdvance : CounterT → (bool * Z) * CounterT.
Variable render : SummaryT → OutgoingMessage.
Variable upstreamSend : OutgoingMessage → World → option error * World.
Variable spoolWrite : string → Spool → option error * Spool.

Local Abbreviation forSelect' :=
  (forSelect bufferAdd bufferFlush counterAdd counterCheckAndAdvance render).

(** X19: [main] runs the pump on the channel the coordinator fills, and
    returns when the pump does.  Whatever has arrived, as long as no
    request came on [done] the pump is parked on the channel; once the
    coordinator has handled a request on [done], the pump finishes. *)
Theorem pump_finishes_after_done :
  ∀ (v02 relayAll : bool) (events : list Event) req now
    (st : @Coordinator BufferT CounterT) (pump : @Pump World Spool),
    closed (sending st) = false →
    forallb (λ e, negb (isDone e)) events = true →
    fst (sendUpstream upstreamSend spoolWrite
           (sending (snd (forSelect' v02 relayAll events st))) pump) = Parked
    ∧ fst (sendUpstream upstreamSend spoolWrite
             (sending (snd (forSelect' v02 relayAll (events ++ [Done req now]) st)))
             pump) = Finished.
Proof.
  intros v02 relayAll events req now st pump Hopen Hfree.
  destruct (forSelect_open bufferAdd bufferFlush counterAdd counterCheckAndAdvance
              render v02 relayAll events st Hopen Hfree)
    as (st' & sent & Hrun & Hsend & _).
  rewrite !sendUpstream_outcome. rewrite forSelect_app, Hrun. cbn [snd].
  split.
  - rewrite Hsend. reflexivity.
  - cbn [forSelect]. unfold selectStmt.
    rewrite caseBody_done by (rewrite Hsend; reflexivity).
    cbn [snd]. unfold afterDone.
    destruct (bufferFlush true now (buffer st')). reflexivity.
Qed.

End Shutdown.

(** ** The further properties at the sample inputs *)

Lemma run_without_done_witness :
  ∃ st' sent,
    forSelect BufferAdd BufferFlush RateAdd CheckAndAdvance Sample.render
      true true Sample.morning Sample.coordinator = (Waiting, st')
    ∧ sending st'
      = {| queue := queue (sending Sample.coordinator) ++ sent; closed := false |}
    ∧ reloadRequested st' = reloadRequested Sample.coordinator.
Proof.
  exact (run_without_done BufferAdd BufferFlush RateAdd CheckAndAdvance
           Sample.render true true Sample.morning Sample.coordinator
           eq_refl eq_refl).
Defined.

Lemma run_relays_in_arrival_order_witness :
  ∃ sent,
    queue (sending (snd (forSelect BufferAdd BufferFlush RateAdd CheckAndAdvance
                           Sample.render false true Sample.morning
                           Sample.coordinator)))
    = queue (sending Sample.coordinator) ++ sent
    ∧ map Raw (arrivals Sample.morning) `sublist_of` sent.
Proof.
  exact (run_relays_in_arrival_order BufferAdd BufferFlush RateAdd CheckAndAdvance
           Sample.render false Sample.morning Sample.coordinator eq_refl eq_refl).
Defined.

Lemma run_leaves_closed_channel_alone_witness :
  let stopped := afterDone BufferFlush Sample.render true Reload 2 Sample.busy in
  sending (snd (forSelect BufferAdd BufferFlush RateAdd CheckAndAdvance
                  Sample.render true true Sample.morning stopped))
  = sending stopped.
Proof.
  exact (run_leaves_closed_channel_alone BufferAdd BufferFlush RateAdd
           CheckAndAdvance Sample.render true true Sample.morning
           (afterDone BufferFlush Sample.render true Reload 2 Sample.busy)
           eq_refl).
Defined.

Lemma run_second_done_panics_witness :
  ∃ msg,
    fst (forSelect BufferAdd BufferFlush RateAdd CheckAndAdvance Sample.render
           false false
           (Done GracefulShutdown 2 :: [RateCheckTick] ++ [Done GracefulShutdown 3])
           Sample.busy)
    = Panicked msg.
Proof.
  exact (run_second_done_panics BufferAdd BufferFlush RateAdd CheckAndAdvance
           Sample.render false false GracefulShutdown 2 [RateCheckTick]
           GracefulShutdown 3 Sample.busy eq_refl).
Defined.

Lemma run_notes_reload_witness :
  reloadRequested
    (snd (run BufferAdd BufferFlush RateAdd CheckAndAdvance Sample.render
            false (Sample.morning ++ [Done Reload 41]) Sample.coordinator))
  = true
  ∧ reloadRequested
      (snd (run01 BufferAdd BufferFlush RateAdd CheckAndAdvance Sample.render
              false (Sample.morning ++ [Done Reload 41]) Sample.coordinator))
    = false.
Proof.
  exact (run_notes_reload BufferAdd BufferFlush RateAdd CheckAndAdvance
           Sample.render false Sample.morning Reload 41 Sample.coordinator
           eq_refl eq_refl).
Defined.

Lemma run_relayAll_only_sends_witness :
  let relaying :=
    snd (forSelect BufferAdd BufferFlush RateAdd CheckAndAdvance Sample.render
           true true Sample.morning Sample.coordinator) in
  let summarizing :=
    snd (forSelect BufferAdd BufferFlush RateAdd CheckAndAdvance Sample.render
           true false Sample.morning Sample.coordinator) in
  buffer relaying = buffer summarizing
  ∧ rateCounter relaying = rateCounter summarizing
  ∧ log relaying = log summarizing
  ∧ reloadRequested relaying = reloadRequested summarizing.
Proof.
  exact (run_relayAll_only_sends BufferAdd BufferFlush RateAdd CheckAndAdvance
           Sample.render true Sample.morning Sample.coordinator eq_refl eq_refl).
Defined.

Lemma sendUpstream_all_accepted_witness :
  let sending :=
    {| queue := [Sample.digest "2 messages"; Sample.digest "1 message"];
       closed := true |} in
  spool (snd (sendUpstream Sample.relay (spoolTo Sample.env) sending
                (Sample.pump "failed")))
  = newMaildir "failed"
  ∧ pumpLog (snd (sendUpstream Sample.relay (spoolTo Sample.env) sending
                    (Sample.pump "failed")))
    = [] ++ ["done sending"].
Proof.
  apply (sendUpstream_all_accepted Sample.relay (spoolTo Sample.env)
           {| queue := [Sample.digest "2 messages"; Sample.digest "1 message"];
              closed := true |} (Sample.pump "failed")).
  intros msg w [<-|[<-|[]]]; reflexivity.
Defined.

Lemma pump_finishes_after_done_witness :
  fst (sendUpstream Sample.relay (spoolTo Sample.env)
         (sending (snd (forSelect BufferAdd BufferFlush RateAdd CheckAndAdvance
                          Sample.render true true Sample.morning
                          Sample.coordinator)))
         (Sample.pump "failed")) = Parked
  ∧ fst (sendUpstream Sample.relay (spoolTo Sample.env)
           (sending (snd (forSelect BufferAdd BufferFlush RateAdd CheckAndAdvance
                            Sample.render true true
                            (Sample.morning ++ [Done GracefulShutdown 41])
                            Sample.coordinator)))
           (Sample.pump "failed")) = Finished.
Proof.
  exact (pump_finishes_after_done BufferAdd BufferFlush RateAdd CheckAndAdvance
           Sample.render Sample.relay (spoolTo Sample.env) true true
           Sample.morning GracefulShutdown 41 Sample.coordinator
           (Sample.pump "failed") eq_refl eq_refl).
Defined.

(** ** Buffering and counting *)

Section CoordinatorCounts.

Context {BufferT SummaryT CounterT : Type}.
Variable bufferAdd : ReceivedMessage → BufferT → BufferT.
Variable bufferFlush : bool → Z → BufferT → list SummaryT * BufferT.
Variable counterAdd : Z → CounterT → CounterT.
Variable counterCheckAndAdvance : CounterT → (bool * Z) * CounterT.
Variable render : SummaryT → OutgoingMessage.

Local Abbreviation State := (@Coordinator BufferT CounterT).
Local Abbreviation selectStmt' :=
  (selectStmt bufferAdd bufferFlush counterAdd counterCheckAndAdvance render).
Local Abbreviation forSelect' :=
  (forSelect bufferAdd bufferFlush counterAdd counterCheckAndAdvance render).

(** Buffer and rate counter after one iteration on an open channel. *)
Lemma selectStmt_open_state v02 relayAll e (st : State) :
  closed (sending st) = false → isDone e = false →
  ∃ st',
    selectStmt' v02 relayAll e st = (Normal, st')
    ∧ closed (sending st') = false
    ∧ buffer st'
      = match e with
        | Received m => bufferAdd m (buffer st)
        | Tick now => snd (bufferFlush false now (buffer st))
        | _ => buffer st
        end
    ∧ rateCounter st'
      = match e with
        | Received _ => counterAdd 1 (rateCounter st)
        | RateCheckTick => snd (counterCheckAndAdvance (rateCounter st))
        | _ => rateCounter st
        end.
Proof.
  intros Hopen Hnot. destruct e as [now| |m|req now]; [| | |discriminate Hnot].
  - unfold selectStmt. cbn [caseBody].
    destruct (bufferFlush false now (buffer st)) as [summaries b].
    rewrite sendEach_open by exact Hopen.
    eexists. split_and!; reflexivity.
  - unfold selectStmt. cbn [caseBody].
    destruct (counterCheckAndAdvance (rateCounter st)) as [[[|] count] r];
      (eexists; split_and!; [reflexivity | exact Hopen | reflexivity | reflexivity]).
  - rewrite selectStmt_received by exact Hopen.
    eexists. split_and!; try reflexivity.
    cbn [sending]. destruct relayAll; [reflexivity | exact Hopen].
Qed.

(** X20: every message received is counted once: over events without
    [done] and without rate checks, the rate counter ends up as after one
    [Add(1)] per message received, whatever ticks came in between and
    whether or not messages are relayed. *)
Theorem run_counts_every_message :
  ∀ (v02 relayAll : bool) (events : list Event) (st : State),
    closed (sending st) = false →
    forallb (λ e, negb (isDone e) && negb (isRateCheck e)) events = true →
    rateCounter (snd (forSelect' v02 relayAll events st))
    = Nat.iter (length (arrivals events)) (counterAdd 1) (rateCounter st).
Proof.
  intros v02 relayAll events. induction events as [|e rest IH]; intros st Hopen Hfree.
  - reflexivity.
  - cbn [forallb] in Hfree. apply andb_prop in Hfree as [He Hrest].
    apply andb_prop in He as [Hdone Hcheck].
    apply negb_true_iff in Hdone. apply negb_true_iff in Hcheck.
    destruct (selectStmt_open_state v02 relayAll e st Hopen Hdone)
      as (st' & Hstep & Hopen' & _ & Hrate).
    cbn [forSelect]. rewrite Hstep. rewrite (IH st' Hopen' Hrest), Hrate.
    destruct e as [now| |m|req now]; try discriminate; try reflexivity.
    change (arrivals (Received m :: rest)) with (m :: arrivals rest).
    cbn [length]. rewrite Nat.iter_succ_r. reflexivity.
Qed.

(** X21: every message received is added to the buffer once, in order of
    arrival: over events without [done] and without flush ticks, the
    buffer ends up as after [Add] of each message received, in that order,
    whatever rate checks came in between and whether or not messages are
    relayed. *)
Theorem run_buffers_every_message :
  ∀ (v02 relayAll : bool) (events : list Event) (st : State),
    closed (sending st) = false →
    forallb (λ e, negb (isDone e) && negb (isTick e)) events = true →
    buffer (snd (forSelect' v02 relayAll events st))
    = foldl (λ b m, bufferAdd m b) (buffer st) (arrivals events).
Proof.
  intros v02 relayAll events. induction events as [|e rest IH]; intros st Hopen Hfree.
  - reflexivity.
  - cbn [forallb] in Hfree. apply andb_prop in Hfree as [He Hrest].
    apply andb_prop in He as [Hdone Htick].
    apply negb_true_iff in Hdone. apply negb_true_iff in Htick.
    destruct (selectStmt_open_state v02 relayAll e st Hopen Hdone)
      as (st' & Hstep & Hopen' & Hbuf & _).
    cbn [forSelect]. rewrite Hstep. rewrite (IH st' Hopen' Hrest), Hbuf.
    destruct e as [now| |m|req now]; try discriminate; reflexivity.
Qed.

End CoordinatorCounts.

Lemma run_counts_every_message_witness :
  rateCounter
    (snd (forSelect BufferAdd BufferFlush RateAdd CheckAndAdvance Sample.render
            true true
            [Received (Sample.received 0 "disk full" "sda1"); Tick 1;
             Received (Sample.received 1 "load high" "12.5"); Tick 40]
            Sample.coordinator))
  = {| buckets := [2; 0; 0; 0; 0]%Z; limit := 0 |}.
Proof.
  exact (run_counts_every_message BufferAdd BufferFlush RateAdd CheckAndAdvance
           Sample.render true true
           [Received (Sample.received 0 "disk full" "sda1"); Tick 1;
            Received (Sample.received 1 "load high" "12.5"); Tick 40]
           Sample.coordinator eq_refl eq_refl).
Defined.

Lemma run_buffers_every_message_witness :
  buffer
    (snd (forSelect BufferAdd BufferFlush RateAdd CheckAndAdvance Sample.render
            false false
            [Received (Sample.received 0 "disk full" "sda1"); RateCheckTick;
             Received (Sample.received 1 "load high" "12.5")]
            Sample.coordinator))
  = BufferAdd (Sample.received 1 "load high" "12.5")
      (BufferAdd (Sample.received 0 "disk full" "sda1")
         (buffer Sample.coordinator)).
Proof.
  exact (run_buffers_every_message BufferAdd BufferFlush RateAdd CheckAndAdvance
           Sample.render false false
           [Received (Sample.received 0 "disk full" "sda1"); RateCheckTick;
            Received (Sample.received 1 "load high" "12.5")]
           Sample.coordinator eq_refl eq_refl).
Defined.

(** ** The grouping builders, read backwards *)

(** X22: the grouping function returned tells which options were given.
    [buildBatch] returns a [MatchingSubject] only for its non-empty
    [batchMatch], a [ReplacedSubject] only with replacement "*" for its
    non-empty [batchReplace] when [batchMatch] is empty, a [Header] only
    for [batchHeader] with default "" when both are empty, and never
    [SameSubject]; [buildGroup] likewise, with [SameSubject] when both
    are empty and never a [Header]. *)
Theorem build_grouping_inversion :
  ∀ batchMatch batchReplace batchHeader groupMatch groupReplace : string,
    match buildBatch batchMatch batchReplace batchHeader with
    | MatchingSubject pattern => pattern = batchMatch ∧ batchMatch ≠ ""
    | ReplacedSubject pattern replacement =>
        batchMatch = "" ∧ pattern = batchReplace ∧ batchReplace ≠ ""
        ∧ replacement = "*"
    | Header name default =>
        batchMatch = "" ∧ batchReplace = "" ∧ name = batchHeader ∧ default = ""
    | SameSubject => False
    end
    ∧ match buildGroup groupMatch groupReplace with
      | MatchingSubject pattern => pattern = groupMatch ∧ groupMatch ≠ ""
      | ReplacedSubject pattern replacement =>
          groupMatch = "" ∧ pattern = groupReplace ∧ groupReplace ≠ ""
          ∧ replacement = "*"
      | SameSubject => groupMatch = "" ∧ groupReplace = ""
      | Header _ _ => False
      end.
Proof.
  intros bm br bh gm gr. unfold buildBatch, buildGroup. split.
  - destruct (decide (bm ≠ "")) as [Hbm|Hbm]; [split; [reflexivity | exact Hbm]|].
    assert (bm = "") as -> by (destruct (decide (bm = "")); [assumption | contradiction]).
    destruct (decide (br ≠ "")) as [Hbr|Hbr]; [split_and!; try reflexivity; exact Hbr|].
    assert (br = "") as -> by (destruct (decide (br = "")); [assumption | contradiction]).
    split_and!; reflexivity.
  - destruct (decide (gm ≠ "")) as [Hgm|Hgm]; [split; [reflexivity | exact Hgm]|].
    assert (gm = "") as -> by (destruct (decide (gm = "")); [assumption | contradiction]).
    destruct (decide (gr ≠ "")) as [Hgr|Hgr]; [split_and!; try reflexivity; exact Hgr|].
    assert (gr = "") as -> by (destruct (decide (gr = "")); [assumption | contradiction]).
    split_and!; reflexivity.
Qed.
